(** * CodeRAG: the retrieval-augmented pipeline, embedded in Rocq

    A shallow embedding of the core of the CodeRAG backend
    ([backend/app/services]): the answer generator ([llm_service.py]), the
    chunker ([parser_service.py]), the embedding gateway
    ([embedding_service.py]), the vector index ([vector_service.py]), the
    orchestrator ([rag_service.py]) and the session store
    ([session_service.py]).

    Conventions.
    - A Python [str] is a [string]; every character of the model stands for
      one character of the Python string, and case mapping is the ASCII one.
    - A function that can raise returns an [outcome]; a function that also
      touches a service (the LLM endpoint, ChromaDB, Redis, the chunk counter)
      takes the service's state and returns the new one.
    - External libraries (OpenRouter, sentence-transformers, ChromaDB, [ast],
      [re], [json]) are Section variables: the embedded code is the code of
      the repository, run against an arbitrary backend. *)

From Stdlib Require Import ZArith Lia Ascii String DecimalString DecimalNat.
From stdpp Require Import gmap strings list fin_maps sorting.

Set Warnings "-register-all".

(** ** Exceptions and outcomes *)

(** The exception classes the services raise or catch. [OtherError] stands for
    any other subclass of [Exception] (IndexError, ValueError, an HTTP status
    error of the SDK, ...). *)
Inductive exn_class : Type :=
  | TimeoutException
  | NetworkError
  | RetryError
  | LLMException
  | EmbeddingException
  | VectorDBException
  | SessionNotFoundException
  | OtherError.

Record exn : Type := Exn { exn_cls : exn_class; exn_str : string }.

Inductive outcome (A : Type) : Type :=
  | Returns (a : A)
  | Raises (e : exn).
Arguments Returns {A} a.
Arguments Raises {A} e.

Definition is_returns {A} (o : outcome A) : bool :=
  match o with Returns _ => true | Raises _ => false end.

(** ** Python strings *)

Module PyStr.

(** [s[:n]] *)
Fixpoint str_take (n : nat) (s : string) : string :=
  match n, s with
  | S n', String c r => String c (str_take n' r)
  | _, _ => ""
  end.

(** [s[n:]] *)
Fixpoint str_drop (n : nat) (s : string) : string :=
  match n, s with
  | S n', String _ r => str_drop n' r
  | _, _ => s
  end.

(** [s[i:j]] for [0 <= i <= j] *)
Definition str_slice (i j : nat) (s : string) : string :=
  str_take (j - i) (str_drop i s).

Definition nl : ascii := "010"%char.

(** [s.count('\n')] *)
Fixpoint count_nl (s : string) : nat :=
  match s with
  | "" => 0
  | String c r => (if Ascii.eqb c nl then 1 else 0) + count_nl r
  end.

(** [sub in s] *)
Fixpoint contains (sub s : string) : bool :=
  String.prefix sub s ||
  match s with
  | "" => false
  | String _ r => contains sub r
  end.

Definition lower_char (c : ascii) : ascii :=
  let n := nat_of_ascii c in
  if (65 <=? n)%nat && (n <=? 90)%nat then ascii_of_nat (n + 32) else c.

Definition upper_char (c : ascii) : ascii :=
  let n := nat_of_ascii c in
  if (97 <=? n)%nat && (n <=? 122)%nat then ascii_of_nat (n - 32) else c.

(** [s.lower()] *)
Fixpoint lower (s : string) : string :=
  match s with
  | "" => ""
  | String c r => String (lower_char c) (lower r)
  end.

(** [s.capitalize()]: first character upper-cased, the rest lower-cased *)
Definition capitalize (s : string) : string :=
  match s with
  | "" => ""
  | String c r => String (upper_char c) (lower r)
  end.

(** [sep.join(parts)] *)
Fixpoint join (sep : string) (parts : list string) : string :=
  match parts with
  | [] => ""
  | [p] => p
  | p :: ps => p +:+ sep +:+ join sep ps
  end.

(** [str(n)] for a non-negative [int] *)
Definition str_of_nat (n : nat) : string :=
  NilZero.string_of_uint (Nat.to_uint n).

(** Truthiness of a [str]: the empty string is falsy. *)
Definition truthy (s : string) : bool :=
  match s with "" => false | _ => true end.

(** [str(z)] for an [int] *)
Definition str_of_Z (z : Z) : string :=
  NilZero.string_of_int (Z.to_int z).

(** [f"{n:06d}"]: decimal, padded with zeros to six characters. *)
Fixpoint zeros (k : nat) : string :=
  match k with
  | 0 => ""
  | S k' => String "0" (zeros k')
  end.

Definition fmt_06d (n : nat) : string :=
  let digits := str_of_nat n in
  zeros (6 - String.length digits) +:+ digits.

(** [s.endswith(suffix)] *)
Definition endswith (suffix s : string) : bool :=
  String.eqb (str_drop (String.length s - String.length suffix) s) suffix
  && (String.length suffix <=? String.length s)%nat.

(** The characters at which [str.splitlines] ends a line. *)
Definition is_linebreak (c : ascii) : bool :=
  match nat_of_ascii c with
  | 10 | 11 | 12 | 13 | 28 | 29 | 30 | 133 => true
  | _ => false
  end.

Definition cr : ascii := "013"%char.

(** [splitlines] with the line in progress: [cur] is [None] at the start of a
    line and [Some l] after the characters [l] of it. A carriage return
    followed by a newline ends one line, not two. *)
Fixpoint splitlines_from (s : string) (cur : option string) : list string :=
  match s with
  | "" => match cur with Some l => [l] | None => [] end
  | String c r =>
      if is_linebreak c then
        default "" cur ::
        (if Ascii.eqb c cr then
           match r with
           | String c2 r2 => if Ascii.eqb c2 nl then splitlines_from r2 None
                             else splitlines_from r None
           | "" => splitlines_from r None
           end
         else splitlines_from r None)
      else splitlines_from r (Some (default "" cur +:+ String c ""))
  end.

(** [s.splitlines()] *)
Definition splitlines (s : string) : list string := splitlines_from s None.

(** A slice bound of a sequence of length [len], as Python clamps it. *)
Definition slice_bound (len : nat) (i : Z) : nat :=
  if (i <? 0)%Z then Z.to_nat (Z.max 0 (i + Z.of_nat len))
  else Nat.min (Z.to_nat i) len.

(** [l[i:j]] for a list, any integers [i] and [j]. *)
Definition list_slice {A : Type} (i j : Z) (l : list A) : list A :=
  let a := slice_bound (length l) i in
  let b := slice_bound (length l) j in
  take (b - a) (drop a l).

(** [range(start, stop, step)] for a positive [step], unrolled at most [fuel]
    times; [py_range] gives it the [stop - start] iterations it can need. *)
Fixpoint range_from (fuel start stop step : nat) : list nat :=
  match fuel with
  | 0 => []
  | S fuel' =>
      if (start <? stop)%nat then start :: range_from fuel' (start + step) stop step
      else []
  end.

Definition py_range (start stop step : nat) : list nat :=
  range_from (stop - start) start stop step.

(** [sep in s], for a separator of one character. *)
Fixpoint has_char (sep : ascii) (s : string) : bool :=
  match s with
  | "" => false
  | String c r => Ascii.eqb c sep || has_char sep r
  end.

(** [s.split(sep)], for a separator of one character: the pieces between the
    separators, the empty ones included; never an empty list. *)
Fixpoint split_on (sep : ascii) (s : string) : list string :=
  match s with
  | "" => [""]
  | String c r =>
      if Ascii.eqb c sep then "" :: split_on sep r
      else
        match split_on sep r with
        | piece :: pieces => String c piece :: pieces
        | [] => [String c ""]
        end
  end.

(** The characters [str.strip] removes ([str.isspace]). *)
Definition is_space (c : ascii) : bool :=
  match nat_of_ascii c with
  | 9 | 10 | 11 | 12 | 13 | 28 | 29 | 30 | 31 | 32 | 133 | 160 => true
  | _ => false
  end.

(** [s.lstrip()] *)
Fixpoint lstrip (s : string) : string :=
  match s with
  | "" => ""
  | String c r => if is_space c then lstrip r else s
  end.

(** [s.rstrip()] *)
Fixpoint rstrip (s : string) : string :=
  match s with
  | "" => ""
  | String c r =>
      match rstrip r with
      | "" => if is_space c then "" else String c ""
      | t => String c t
      end
  end.

(** [s.strip()] *)
Definition strip (s : string) : string := rstrip (lstrip s).

(** The number a string of decimal digits writes ([int(s)]), leading zeros
    allowed. *)
Definition digits_value (s : string) : option nat :=
  Nat.of_uint <$> NilEmpty.uint_of_string s.

(** [s.replace(old, new)] for a non-empty [old]: the occurrences of [old] are
    replaced from left to right, without overlap. The loop runs at most once
    per character; [str_replace] gives it that many rounds. *)
Fixpoint replace_from (fuel : nat) (old new s : string) : string :=
  match fuel with
  | 0 => s
  | S fuel' =>
      match s with
      | "" => ""
      | String c r =>
          if String.prefix old s
          then new +:+ replace_from fuel' old new (str_drop (String.length old) s)
          else String c (replace_from fuel' old new r)
      end
  end.

Definition str_replace (old new s : string) : string :=
  replace_from (String.length s) old new s.

End PyStr.


Definition NL : string := String PyStr.nl "".

(** ** Data shared by the services *)

(** The numeric carriers: a Python [float] and a numpy array of them, with the
    order of the floats. *)
Class Numbers : Type := {
  PyFloat : Type;
  NdArray : Type;
  float_le : PyFloat -> PyFloat -> Prop
}.

(** The metadata dict stored next to a vector ([vector_service.py],
    [insert_embeddings]). *)
Record chunk_meta : Type := ChunkMeta {
  meta_file_path : string;
  meta_type : string;
  meta_name : string;
  meta_language : string;
  meta_lines : string;
  meta_docstring : string
}.

(** One formatted search result ([search_similar]); [D] is the type of the
    distances the vector database reports. *)
Record hit (D : Type) : Type := Hit {
  hit_id : string;
  hit_code : string;
  hit_metadata : chunk_meta;
  hit_distance : D
}.
Arguments Hit {D} _ _ _ _.
Arguments hit_id {D} _.
Arguments hit_code {D} _.
Arguments hit_metadata {D} _.
Arguments hit_distance {D} _.

(** ** Answer generator: [llm_service.py] *)

Module LLM.

(** [response.usage] of a chat completion. *)
Record usage : Type := Usage {
  prompt_tokens : nat;
  completion_tokens : nat;
  total_tokens : nat
}.

(** What [_call_model] reads off a completion: the message contents of the
    choices, the usage block, and the [x-ratelimit-cost] header when the
    response has headers and the header is there. *)
Record response : Type := Response {
  choices : list string;
  resp_usage : option usage;
  cost_header : option string
}.

(** The ["tokens"] dict of a result. *)
Record tokens : Type := Tokens {
  tok_prompt : option nat;
  tok_completion : option nat;
  tok_total : option nat
}.

(** The endpoint as the service sees it: the models requested so far, in
    order, and the back-off sleeps taken so far (seconds). *)
Record net : Type := Net {
  calls : list string;
  slept : list nat
}.

Definition after (st : net) (models : list string) : net :=
  {| calls := calls st ++ models; slept := slept st |}.

Definition sleep (seconds : nat) (st : net) : net :=
  {| calls := calls st; slept := slept st ++ [seconds] |}.

(** *** The retry policy (tenacity) *)

Definition stop_after_attempt : nat := 3.

(** [wait_exponential(multiplier, min, max)] after attempt [attempt_number]. *)
Definition wait_exponential (multiplier min max attempt_number : nat) : nat :=
  Nat.max (Nat.max 0 min) (Nat.min (multiplier * 2 ^ (attempt_number - 1)) max).

(** [retry_if_exception_type((httpx.TimeoutException, httpx.NetworkError))] *)
Definition retry_if_exception_type (e : exn) : bool :=
  match exn_cls e with
  | TimeoutException | NetworkError => true
  | _ => false
  end.

(** The [@retry] loop around a function [f]: [remaining] is the number of
    attempts the stop condition still allows after the current one,
    [attempt_number] the number of the current attempt. An exception the
    predicate rejects is re-raised as it is; one it accepts is retried after
    the wait, or wrapped in a [RetryError] once the attempts are used up. *)
Fixpoint retrying {A : Type} (remaining attempt_number : nat)
    (f : net -> outcome A * net) (st : net) : outcome A * net :=
  let '(r, st1) := f st in
  match r with
  | Returns a => (Returns a, st1)
  | Raises e =>
      if retry_if_exception_type e then
        match remaining with
        | 0 => (Raises (Exn RetryError (exn_str e)), st1)
        | S k =>
            retrying k (S attempt_number) f
              (sleep (wait_exponential 1 2 10 attempt_number) st1)
        end
      else (Raises e, st1)
  end.

(** The OpenRouter endpoint and the service's settings.
    [chat_completions_create n model prompt] is the outcome of the [n]-th
    request made to the endpoint ([self.client.chat.completions.create]);
    [py_float] is [float(s)]; the three settings are those [__init__] reads
    ([settings.default_model], [settings.fallback_models_list],
    [settings.enable_fallback]). *)
Class OpenRouter `{Numbers} : Type := {
  chat_completions_create : nat -> string -> string -> outcome response;
  py_float : string -> outcome PyFloat;
  default_model : string;
  fallback_models : list string;
  enable_fallback : bool
}.

Section Service.
Context `{OpenRouter}.

(** The dict [_call_model] returns; ["cost"] is set only with the header. *)
Record call_result : Type := CallResult {
  content : string;
  res_tokens : tokens;
  res_cost : option PyFloat
}.

(** The dict [generate_explanation] returns. *)
Record explanation : Type := Explanation {
  answer : string;
  model_used : string;
  exp_tokens : option tokens;
  exp_cost : option PyFloat
}.

(** The [except Exception] handler of [_call_model]. *)
Definition classify_error (model : string) (e : exn) : exn :=
  let error_msg := exn_str e in
  if PyStr.contains "insufficient_quota" (PyStr.lower error_msg) then
    Exn LLMException "Insufficient quota on OpenRouter account"
  else if PyStr.contains "rate_limit" (PyStr.lower error_msg) then
    Exn LLMException "Rate limit exceeded, please try again later"
  else if PyStr.contains "model_not_found" (PyStr.lower error_msg) then
    Exn LLMException ("Model not found: " +:+ model)
  else
    Exn LLMException ("LLM request failed: " +:+ error_msg).

Definition tokens_of (u : option usage) : tokens :=
  {| tok_prompt := prompt_tokens <$> u;
     tok_completion := completion_tokens <$> u;
     tok_total := total_tokens <$> u |}.

(** The body of [_call_model], under the decorator: one request, the result
    dict built from the response, every exception of the [try] block handled
    by [classify_error]. *)
Definition call_model_body (model user_prompt : string) (st : net)
    : outcome call_result * net :=
  let st1 := after st [model] in
  match chat_completions_create (length (calls st)) model user_prompt with
  | Raises e => (Raises (classify_error model e), st1)
  | Returns resp =>
      match choices resp with
      | [] =>
          (Raises (classify_error model (Exn OtherError "list index out of range")), st1)
      | c :: _ =>
          match cost_header resp with
          | None =>
              (Returns {| content := c; res_tokens := tokens_of (resp_usage resp);
                          res_cost := None |}, st1)
          | Some h =>
              match py_float h with
              | Returns x =>
                  (Returns {| content := c; res_tokens := tokens_of (resp_usage resp);
                              res_cost := Some x |}, st1)
              | Raises e => (Raises (classify_error model e), st1)
              end
          end
      end
  end.

(** [_call_model]: the body under [@retry(stop=stop_after_attempt(3),
    wait=wait_exponential(multiplier=1, min=2, max=10),
    retry=retry_if_exception_type(...))]. *)
Definition _call_model (model user_prompt : string) (st : net)
    : outcome call_result * net :=
  retrying (stop_after_attempt - 1) 1 (call_model_body model user_prompt) st.

(** [_build_context]: one labelled block per chunk, numbered from 1. *)
Definition context_part (i : nat) (chunk : hit PyFloat) : string :=
  let metadata := hit_metadata chunk in
  NL +:+ "### Code Snippet " +:+ PyStr.str_of_nat i +:+ NL +:+
  "**File:** `" +:+ meta_file_path metadata +:+ "`" +:+ NL +:+
  "**Type:** " +:+ meta_type metadata +:+ " - " +:+ meta_name metadata +:+ NL +:+
  "**Lines:** " +:+ meta_lines metadata +:+ NL +:+
  "**Language:** " +:+ meta_language metadata +:+ NL +:+
  "```" +:+ meta_language metadata +:+ NL +:+
  hit_code chunk +:+ NL +:+
  "```" +:+ NL.

Definition _build_context (code_chunks : list (hit PyFloat)) : string :=
  PyStr.join NL (imap (fun i chunk => context_part (S i) chunk) code_chunks).

Definition user_prompt (question : string) (code_chunks : list (hit PyFloat)) : string :=
  "Based on the following code from the repository:" +:+ NL +:+ NL +:+
  _build_context code_chunks +:+ NL +:+ NL +:+
  "Question: " +:+ question +:+ NL +:+ NL +:+
  "Please provide a comprehensive explanation.".

(** [not not model] and [model or self.default_model], for
    [model : Optional[str]]: [None] and the empty string are falsy. *)
Definition model_given (model : option string) : bool :=
  match model with
  | Some m => PyStr.truthy m
  | None => false
  end.

Definition model_or_default (model : option string) : string :=
  match model with
  | Some m => if PyStr.truthy m then m else default_model
  | None => default_model
  end.

Definition models_to_try (model : option string) : list string :=
  [model_or_default model] ++
  (if enable_fallback && negb (model_given model) then fallback_models else []).

(** [str(last_error)] *)
Definition str_last_error (last_error : option exn) : string :=
  match last_error with
  | Some e => exn_str e
  | None => "None"
  end.

(** The [for current_model in models_to_try] loop and the final [raise]. *)
Fixpoint try_models (models : list string) (prompt : string)
    (last_error : option exn) (st : net) : outcome explanation * net :=
  match models with
  | [] =>
      (Raises (Exn LLMException
                 ("All models failed. Last error: " +:+ str_last_error last_error)), st)
  | current_model :: rest =>
      let '(r, st1) := _call_model current_model prompt st in
      match r with
      | Returns result =>
          (Returns {| answer := content result;
                      model_used := current_model;
                      exp_tokens := Some (res_tokens result);
                      exp_cost := res_cost result |}, st1)
      | Raises e => try_models rest prompt (Some e) st1
      end
  end.

Definition generate_explanation (question : string) (code_chunks : list (hit PyFloat))
    (model : option string) (st : net) : outcome explanation * net :=
  try_models (models_to_try model) (user_prompt question code_chunks) None st.

(** The models of [failed], tried in order from [st], all raise. *)
Definition all_fail (prompt : string) (st : net) (failed : list string) : Prop :=
  forall i m, failed !! i = Some m ->
    is_returns (fst (_call_model m prompt (after st (take i failed)))) = false.

End Service.

(** *** Code generation and the model listing *)

(** The endpoint asked by [generate_code_snippet] (the programmer's system
    message, temperature 0.5, 2000 tokens): [create_snippet n model prompt] is
    the outcome of the [n]-th request made to the endpoint. [fetch_models] is
    the GET of the model list, parsed: the ["data"] list of the answer, each
    model with its ["id"] when it has one, or the exception raised on the way
    (the connection, the status, the JSON). *)
Record model_info : Type := ModelInfo {
  info_id : option string;
  info_name : string
}.

Class ModelEndpoint : Type := {
  create_snippet : nat -> string -> string -> outcome response;
  fetch_models : outcome (list model_info)
}.

(** The dict [generate_code_snippet] returns. *)
Record snippet : Type := Snippet {
  snippet_code : string;
  snippet_model_used : string
}.

Section Snippets.
Context `{OpenRouter} `{!ModelEndpoint}.

(** The prompt of [generate_code_snippet]. *)
Definition snippet_prompt (description context : string) : string :=
  "Generate code based on the following request:" +:+ NL +:+ NL +:+
  description +:+ NL +:+ NL +:+
  (if PyStr.truthy context then "Context from existing codebase:" +:+ context else "")
  +:+ NL +:+ NL +:+
  "Provide only the code with proper formatting and comments.".

(** The [try] block of the loop of [generate_code_snippet]: the request, then
    [response.choices[0].message.content]. *)
Definition snippet_attempt (n : nat) (model prompt : string) : outcome string :=
  match create_snippet n model prompt with
  | Raises e => Raises e
  | Returns resp =>
      match choices resp with
      | [] => Raises (Exn OtherError "list index out of range")
      | c :: _ => Returns c
      end
  end.

(** The loop of [generate_code_snippet] and its final [raise]. *)
Fixpoint try_snippet_models (models : list string) (prompt : string)
    (last_error : option exn) (st : net) : outcome snippet * net :=
  match models with
  | [] =>
      (Raises (Exn LLMException
                 ("Code generation failed with all models. Last error: "
                  +:+ str_last_error last_error)), st)
  | current_model :: rest =>
      match snippet_attempt (length (calls st)) current_model prompt with
      | Returns code =>
          (Returns {| snippet_code := code; snippet_model_used := current_model |},
           after st [current_model])
      | Raises e => try_snippet_models rest prompt (Some e) (after st [current_model])
      end
  end.

Definition generate_code_snippet (description context : string)
    (model : option string) (st : net) : outcome snippet * net :=
  try_snippet_models (models_to_try model) (snippet_prompt description context) None st.

(** [get_available_models]: any exception is logged and gives the empty
    list. *)
Definition get_available_models : list model_info :=
  match fetch_models with
  | Returns models => models
  | Raises _ => []
  end.

(** [get_model_info]: the first model of the list with this id. *)
Definition get_model_info (model_id : string) : option model_info :=
  snd <$> list_find (fun m => info_id m = Some model_id) get_available_models.

End Snippets.

End LLM.

(** ** Chunker: [parser_service.py] *)

Module Parser.

(** [CodeChunk] *)
Record CodeChunk : Type := MkChunk {
  chunk_id : string;
  chunk_type : string;
  chunk_name : string;
  chunk_code : string;
  chunk_file_path : string;
  start_line : Z;
  end_line : Z;
  chunk_language : string;
  chunk_docstring : string;
  chunk_imports : list string
}.

(** [CodeChunk.get_context_text] *)
Definition get_context_text (c : CodeChunk) : string :=
  let context_parts :=
    ["File: " +:+ chunk_file_path c;
     "Language: " +:+ chunk_language c;
     PyStr.capitalize (chunk_type c) +:+ ": " +:+ chunk_name c] in
  let context_parts :=
    if PyStr.truthy (chunk_docstring c)
    then context_parts ++ ["Documentation: " +:+ chunk_docstring c]
    else context_parts in
  let context_parts := context_parts ++ ["Code:" +:+ NL +:+ chunk_code c] in
  PyStr.join NL context_parts.

(** *** The syntax tree of the [ast] module

    What the parser reads off a definition node: [node.name], [node.lineno],
    [node.end_lineno] and [ast.get_docstring(node)]. *)
Record def_info : Type := DefInfo {
  def_name : string;
  lineno : Z;
  end_lineno : option Z;
  get_docstring : option string
}.

(** A node with its child nodes ([ast.iter_child_nodes]); [OtherNode] is any
    statement or expression that is not a definition. *)
Inductive node : Type :=
  | Module_ (children : list node)
  | FunctionDef (d : def_info) (children : list node)
  | AsyncFunctionDef (d : def_info) (children : list node)
  | ClassDef (d : def_info) (children : list node)
  | OtherNode (children : list node).

Definition iter_child_nodes (n : node) : list node :=
  match n with
  | Module_ cs | FunctionDef _ cs | AsyncFunctionDef _ cs | ClassDef _ cs
  | OtherNode cs => cs
  end.

Fixpoint node_size (n : node) : nat :=
  match n with
  | Module_ cs | FunctionDef _ cs | AsyncFunctionDef _ cs | ClassDef _ cs
  | OtherNode cs => S (list_sum (map node_size cs))
  end.

(** Every node of a tree, the root first, then the subtrees in order. *)
Fixpoint all_nodes (n : node) : list node :=
  match n with
  | Module_ cs | FunctionDef _ cs | AsyncFunctionDef _ cs | ClassDef _ cs
  | OtherNode cs => n :: concat (map all_nodes cs)
  end.

(** The loop of [ast.walk]: pop the first node of the queue, push its
    children at the end, yield it. *)
Fixpoint walk_queue (fuel : nat) (todo : list node) : list node :=
  match fuel with
  | 0 => []
  | S fuel' =>
      match todo with
      | [] => []
      | n :: rest => n :: walk_queue fuel' (rest ++ iter_child_nodes n)
      end
  end.

(** [ast.walk(tree)]; the loop runs once per node of the tree. *)
Definition walk (tree : node) : list node :=
  walk_queue (node_size tree) [tree].

(** [node.end_lineno or start_line] *)
Definition end_or_start (d : def_info) : Z :=
  match end_lineno d with
  | Some e => if (e =? 0)%Z then lineno d else e
  | None => lineno d
  end.

(** [ast.get_docstring(node) or ""] *)
Definition docstring_or_empty (d : def_info) : string :=
  default "" (get_docstring d).

(** *** Vocabulary of the statements about the chunker *)

(** What a chunk shows of itself: type, name, first and last line. *)
Definition chunk_view (c : CodeChunk) : string * string * Z * Z :=
  (chunk_type c, chunk_name c, start_line c, end_line c).

(** The definition nodes [parse_python_file] makes a chunk of, with the type
    of the chunk. *)
Definition def_chunk_view (n : node) : option (string * def_info) :=
  match n with
  | FunctionDef d _ => Some ("function", d)
  | ClassDef d _ => Some ("class", d)
  | _ => None
  end.

(** The definitions at the top level of a module, as the specification counts
    them: the function and class definitions among the statements of the
    module body. *)
Definition top_level_defs (tree : node) : list (string * def_info) :=
  omap def_chunk_view (iter_child_nodes tree).

(** A chunk made of a definition node carries the node's name, its span and
    its docstring. *)
Definition chunk_of_def (c : CodeChunk) (td : string * def_info) : Prop :=
  chunk_type c = td.1
  /\ chunk_name c = def_name td.2
  /\ start_line c = lineno td.2
  /\ end_line c = end_or_start td.2
  /\ chunk_docstring c = docstring_or_empty td.2.

Definition is_module_chunk (c : CodeChunk) : Prop :=
  chunk_type c = "module".

#[global] Instance is_module_chunk_dec c : Decision (is_module_chunk c).
Proof. unfold is_module_chunk. apply _. Defined.

(** The span of a chunk is a span of lines numbered from 1. *)
Definition span_ok (c : CodeChunk) : Prop :=
  (1 <= start_line c /\ start_line c <= end_line c)%Z.

(** The ids [_create_chunk] gives to [n] chunks made in a row from the
    counter value [k]. *)
Definition chunk_ids_from (k n : nat) : list string :=
  (fun i => "chunk_" +:+ PyStr.fmt_06d (S (k + i))) <$> seq 0 n.

(** What a parse returns, ids in sequence from the counter value [k]: the
    counter has advanced by the number of chunks, and the chunks carry the
    ids of that many calls of [_create_chunk]. *)
Definition sequential_ids (k : nat) (res : list CodeChunk * nat) : Prop :=
  res.2 = k + length res.1
  /\ chunk_id <$> res.1 = chunk_ids_from k (length res.1).

(** Text in which every opening brace has its closing brace. *)
Inductive balanced : string -> Prop :=
  | balanced_empty : balanced ""
  | balanced_char c s :
      c <> "{"%char -> c <> "}"%char -> balanced s -> balanced (String c s)
  | balanced_block s t :
      balanced s -> balanced t ->
      balanced (String "{" (s +:+ String "}" t)).

(** A match of the function-declaration pattern of
    [parse_javascript_file]: [match.group(1)], [match.start()],
    [match.end()]. *)
Record re_match : Type := ReMatch {
  group1 : string;
  m_start : nat;
  m_end : nat
}.

(** The world of the parser: the file system ([open(...).read()],
    [os.path.relpath], [Path(p).suffix], [Path(p).stem]), the Python parser
    ([ast.parse], raising on a syntax error), the regular-expression engine
    on the function pattern ([re.finditer(func_pattern, content)]) and
    [settings.max_chunk_size]. *)
Class ParserEnv : Type := {
  read_text : string -> outcome string;
  relpath : string -> string -> string;
  path_suffix : string -> string;
  path_stem : string -> string;
  ast_parse : string -> outcome node;
  func_finditer : string -> list re_match;
  max_chunk_size : Z
}.

Section Service.
Context `{ParserEnv}.

(** [_create_chunk]: the counter is incremented, then used for the id. *)
Definition _create_chunk (type name code file_path : string)
    (start_line end_line : Z) (language docstring : string)
    (chunk_counter : nat) : CodeChunk * nat :=
  let chunk_counter := S chunk_counter in
  ({| chunk_id := "chunk_" +:+ PyStr.fmt_06d chunk_counter;
      chunk_type := type;
      chunk_name := name;
      chunk_code := code;
      chunk_file_path := file_path;
      start_line := start_line;
      end_line := end_line;
      chunk_language := language;
      chunk_docstring := docstring;
      chunk_imports := [] |}, chunk_counter).

(** The common body of [_parse_python_function] and [_parse_python_class]. *)
Definition parse_python_def (type : string) (d : def_info) (lines : list string)
    (file_path : string) (chunk_counter : nat) : CodeChunk * nat :=
  let start_line := lineno d in
  let end_line := end_or_start d in
  let code_lines := PyStr.list_slice (start_line - 1) end_line lines in
  let code := PyStr.join NL code_lines in
  _create_chunk type (def_name d) code file_path start_line end_line
    "python" (docstring_or_empty d) chunk_counter.

Definition _parse_python_function := parse_python_def "function".
Definition _parse_python_class := parse_python_def "class".

(** The [for node in ast.walk(tree)] loop of [parse_python_file]. *)
Fixpoint python_def_chunks (nodes : list node) (lines : list string)
    (relative_path : string) (chunk_counter : nat) : list CodeChunk * nat :=
  match nodes with
  | [] => ([], chunk_counter)
  | FunctionDef d _ :: rest =>
      let '(c, k) := _parse_python_function d lines relative_path chunk_counter in
      let '(cs, k') := python_def_chunks rest lines relative_path k in
      (c :: cs, k')
  | ClassDef d _ :: rest =>
      let '(c, k) := _parse_python_class d lines relative_path chunk_counter in
      let '(cs, k') := python_def_chunks rest lines relative_path k in
      (c :: cs, k')
  | _ :: rest => python_def_chunks rest lines relative_path chunk_counter
  end.

(** [content[:min(1000, len(content))]] *)
Definition module_prefix (content : string) : string :=
  PyStr.str_take (Nat.min 1000 (String.length content)) content.

(** [parse_python_file]: an unreadable file or a syntax error leaves the list
    of chunks empty. *)
Definition parse_python_file (file_path base_path : string) (chunk_counter : nat)
    : list CodeChunk * nat :=
  match read_text file_path with
  | Raises _ => ([], chunk_counter)
  | Returns content =>
      let lines := PyStr.splitlines content in
      match ast_parse content with
      | Raises _ => ([], chunk_counter)
      | Returns tree =>
          let relative_path := relpath file_path base_path in
          let '(module_chunk, k) :=
            _create_chunk "module" (path_stem file_path) (module_prefix content)
              relative_path 1 (Z.of_nat (length lines)) "python" "" chunk_counter in
          let '(defs, k') := python_def_chunks (walk tree) lines relative_path k in
          (module_chunk :: defs, k')
      end
  end.

(** The brace-matching loop of [parse_javascript_file]: [rest] is
    [content[pos:]]; the loop stops at the end of the text or when
    [brace_count] reaches zero, and returns [pos]. *)
Fixpoint scan_braces (rest : string) (brace_count pos : nat) : nat :=
  match brace_count with
  | 0 => pos
  | S depth =>
      match rest with
      | "" => pos
      | String c r =>
          let brace_count :=
            if Ascii.eqb c "{"%char then S (S depth)
            else if Ascii.eqb c "}"%char then depth
            else S depth in
          scan_braces r brace_count (S pos)
      end
  end.

(** One iteration of the [for match in matches] loop. *)
Definition javascript_function_chunk (content : string) (lines : list string)
    (relative_path language : string) (m : re_match) (chunk_counter : nat)
    : CodeChunk * nat :=
  let func_name := group1 m in
  let start_pos := m_start m in
  let start_line := Z.of_nat (PyStr.count_nl (PyStr.str_take start_pos content) + 1) in
  let pos := scan_braces (PyStr.str_drop (m_end m) content) 1 (m_end m) in
  let end_line := Z.of_nat (PyStr.count_nl (PyStr.str_take pos content) + 1) in
  let code_lines := PyStr.list_slice (start_line - 1) end_line lines in
  let code := PyStr.join NL code_lines in
  _create_chunk "function" func_name code relative_path start_line end_line
    language "" chunk_counter.

Fixpoint javascript_function_chunks (matches : list re_match) (content : string)
    (lines : list string) (relative_path language : string) (chunk_counter : nat)
    : list CodeChunk * nat :=
  match matches with
  | [] => ([], chunk_counter)
  | m :: rest =>
      let '(c, k) :=
        javascript_function_chunk content lines relative_path language m chunk_counter in
      let '(cs, k') :=
        javascript_function_chunks rest content lines relative_path language k in
      (c :: cs, k')
  end.

(** [parse_javascript_file]: the function chunks, then the module chunk. *)
Definition parse_javascript_file (file_path base_path : string) (chunk_counter : nat)
    : list CodeChunk * nat :=
  match read_text file_path with
  | Raises _ => ([], chunk_counter)
  | Returns content =>
      let lines := PyStr.splitlines content in
      let relative_path := relpath file_path base_path in
      let language :=
        if PyStr.endswith ".ts" file_path || PyStr.endswith ".tsx" file_path
        then "typescript" else "javascript" in
      let '(funcs, k) :=
        javascript_function_chunks (func_finditer content) content lines
          relative_path language chunk_counter in
      let '(module_chunk, k') :=
        _create_chunk "module" (path_stem file_path) (module_prefix content)
          relative_path 1 (Z.of_nat (length lines)) language "" k in
      (funcs ++ [module_chunk], k')
  end.

(** One iteration of the [for i in range(0, len(content), chunk_size)] loop
    of [parse_generic_file]. *)
Definition generic_window_chunk (file_path relative_path language content : string)
    (chunk_size i : nat) (chunk_counter : nat) : CodeChunk * nat :=
  let chunk_content := PyStr.str_slice i (i + chunk_size) content in
  let start_line := Z.of_nat (PyStr.count_nl (PyStr.str_take i content) + 1) in
  let end_line :=
    Z.of_nat (PyStr.count_nl (PyStr.str_take (i + String.length chunk_content) content) + 1) in
  _create_chunk "module"
    (path_stem file_path +:+ "_part_" +:+ PyStr.str_of_nat (i / chunk_size + 1))
    chunk_content relative_path start_line end_line language "" chunk_counter.

Fixpoint generic_window_chunks (starts : list nat)
    (file_path relative_path language content : string) (chunk_size : nat)
    (chunk_counter : nat) : list CodeChunk * nat :=
  match starts with
  | [] => ([], chunk_counter)
  | i :: rest =>
      let '(c, k) :=
        generic_window_chunk file_path relative_path language content chunk_size i
          chunk_counter in
      let '(cs, k') :=
        generic_window_chunks rest file_path relative_path language content chunk_size k in
      (c :: cs, k')
  end.

(** [parse_generic_file]. A chunk size of zero makes [range] raise, which the
    handler swallows; a negative one makes the range empty. *)
Definition parse_generic_file (file_path base_path : string) (chunk_counter : nat)
    : list CodeChunk * nat :=
  match read_text file_path with
  | Raises _ => ([], chunk_counter)
  | Returns content =>
      let relative_path := relpath file_path base_path in
      let ext := PyStr.lower (path_suffix file_path) in
      let language := if PyStr.truthy ext then PyStr.str_drop 1 ext else "unknown" in
      let chunk_size := max_chunk_size in
      if (chunk_size <=? 0)%Z then ([], chunk_counter)
      else
        generic_window_chunks
          (PyStr.py_range 0 (String.length content) (Z.to_nat chunk_size))
          file_path relative_path language content (Z.to_nat chunk_size) chunk_counter
  end.

(** [parse_file]: the strategy is chosen by the lower-cased extension. *)
Definition parse_file (file_path base_path : string) (chunk_counter : nat)
    : list CodeChunk * nat :=
  let ext := PyStr.lower (path_suffix file_path) in
  if String.eqb ext ".py" then parse_python_file file_path base_path chunk_counter
  else if String.eqb ext ".js" || String.eqb ext ".jsx"
          || String.eqb ext ".ts" || String.eqb ext ".tsx"
  then parse_javascript_file file_path base_path chunk_counter
  else parse_generic_file file_path base_path chunk_counter.

(** [parse_codebase] *)
Fixpoint parse_codebase (file_paths : list string) (base_path : string)
    (chunk_counter : nat) : list CodeChunk * nat :=
  match file_paths with
  | [] => ([], chunk_counter)
  | file_path :: rest =>
      let '(chunks, k) := parse_file file_path base_path chunk_counter in
      let '(all_chunks, k') := parse_codebase rest base_path k in
      (chunks ++ all_chunks, k')
  end.

End Service.

End Parser.

(** ** Embedding gateway: [embedding_service.py] *)

Module Embedding.
Import Parser.

(** The retrieval-context text as the specification words it: the file path
    line, the language line, the kind-and-name line, the documentation line
    when there is a docstring, and the code, in that order. *)
Definition context_text_spec (c : CodeChunk) : string :=
  "File: " +:+ chunk_file_path c +:+ NL +:+
  "Language: " +:+ chunk_language c +:+ NL +:+
  PyStr.capitalize (chunk_type c) +:+ ": " +:+ chunk_name c +:+ NL +:+
  (if decide (chunk_docstring c = "") then ""
   else "Documentation: " +:+ chunk_docstring c +:+ NL) +:+
  "Code:" +:+ NL +:+ chunk_code c.

(** The text handed to the embedding model for a chunk, as the specification
    words it: the context text, cut at 2000 characters. *)
Definition embedding_text_spec (c : CodeChunk) : string :=
  PyStr.str_take 2000 (context_text_spec c).

(** The sentence-transformers model: [self.model.encode] on a list of texts
    and on one text. *)
Class EmbeddingModel `{Numbers} : Type := {
  encode : list string -> outcome (list NdArray);
  encode_one : string -> outcome NdArray
}.

Section Service.
Context `{EmbeddingModel}.

(** The texts [generate_embeddings] hands to the model: the context text of
    each chunk, cut at 2000 characters. *)
Definition embedding_texts (chunks : list CodeChunk) : list string :=
  let texts := map get_context_text chunks in
  map (PyStr.str_take 2000) texts.

(** [generate_embeddings] *)
Definition generate_embeddings (chunks : list CodeChunk) : outcome (list NdArray) :=
  match chunks with
  | [] => Returns []
  | _ =>
      match encode (embedding_texts chunks) with
      | Returns embeddings => Returns embeddings
      | Raises e =>
          Raises (Exn EmbeddingException ("Failed to generate embeddings: " +:+ exn_str e))
      end
  end.

(** [generate_single_embedding] *)
Definition generate_single_embedding (text : string) : outcome NdArray :=
  match encode_one (PyStr.str_take 2000 text) with
  | Returns embedding => Returns embedding
  | Raises e =>
      Raises (Exn EmbeddingException ("Failed to generate embedding: " +:+ exn_str e))
  end.

End Service.

End Embedding.

(** ** Vector index: [vector_service.py] *)

Module Vector.
Import Parser.

Section Service.
Context `{Numbers}.

(** One entry of a collection: id, document, metadata, embedding. *)
Record entry : Type := Entry {
  entry_id : string;
  entry_document : string;
  entry_metadata : chunk_meta;
  entry_embedding : NdArray
}.

(** What [collection.query] returns for the included fields: one row per
    query embedding in each of the four columns. *)
Record query_result : Type := QueryResult {
  res_ids : list (list string);
  res_documents : list (list string);
  res_metadatas : list (list chunk_meta);
  res_distances : list (list PyFloat)
}.

(** The ChromaDB backend behind the client: which collection names it
    accepts, which batches a collection accepts, and its nearest-neighbour
    query over the entries of a collection. *)
Class Chroma : Type := {
  valid_name : string -> bool;
  add_accepts : list entry -> list entry -> bool;
  collection_query : list entry -> NdArray -> nat -> outcome query_result
}.

Context `{Chroma}.

(** The persistent client: the collections by name, each with its entries in
    insertion order. *)
Abbreviation store := (gmap string (list entry)).

Definition collection_name (session_id : string) : string :=
  "session_" +:+ session_id.

Definition does_not_exist (name : string) : exn :=
  Exn OtherError ("Collection " +:+ name +:+ " does not exist.").

(** [client.delete_collection(name)] *)
Definition client_delete_collection (name : string) (st : store) : outcome unit * store :=
  match st !! name with
  | Some _ => (Returns tt, delete name st)
  | None => (Raises (does_not_exist name), st)
  end.

(** [client.create_collection(name, metadata)] *)
Definition client_create_collection (name : string) (st : store) : outcome unit * store :=
  match st !! name with
  | Some _ => (Raises (Exn OtherError ("Collection " +:+ name +:+ " already exists")), st)
  | None =>
      if valid_name name then (Returns tt, <[name := []]> st)
      else (Raises (Exn OtherError ("Invalid collection name: " +:+ name)), st)
  end.

(** [collection.add(ids, documents, metadatas, embeddings)] on the collection
    [name]: the four lists must have one length, and the backend must accept
    the batch; a rejected batch changes nothing. *)
Definition zip_entries (ids documents : list string) (metadatas : list chunk_meta)
    (embeddings : list NdArray) : list entry :=
  zip_with (fun '(i, d) '(m, e) => Entry i d m e) (zip ids documents) (zip metadatas embeddings).

Definition collection_add (name : string) (ids documents : list string)
    (metadatas : list chunk_meta) (embeddings : list NdArray) (st : store)
    : outcome unit * store :=
  match st !! name with
  | None => (Raises (does_not_exist name), st)
  | Some entries =>
      if bool_decide (length documents = length ids
                      ∧ length metadatas = length ids
                      ∧ length embeddings = length ids) then
        let batch := zip_entries ids documents metadatas embeddings in
        if add_accepts entries batch
        then (Returns tt, <[name := entries ++ batch]> st)
        else (Raises (Exn OtherError "Batch rejected by the collection"), st)
      else (Raises (Exn OtherError "Unequal lengths for ids, documents, metadatas, embeddings"), st)
  end.

(** [create_collection]: any collection of that name is deleted first, errors
    of the deletion ignored; an error of the creation is re-raised as a
    [VectorDBException]. *)
Definition create_collection (session_id : string) (st : store) : outcome unit * store :=
  let name := collection_name session_id in
  let '(_, st1) := client_delete_collection name st in
  match client_create_collection name st1 with
  | (Returns _, st2) => (Returns tt, st2)
  | (Raises e, st2) =>
      (Raises (Exn VectorDBException ("Failed to create collection: " +:+ exn_str e)), st2)
  end.

(** The metadata dict of a chunk. *)
Definition metadata_of (chunk : CodeChunk) : chunk_meta :=
  {| meta_file_path := chunk_file_path chunk;
     meta_type := chunk_type chunk;
     meta_name := chunk_name chunk;
     meta_language := chunk_language chunk;
     meta_lines := PyStr.str_of_Z (start_line chunk) +:+ "-" +:+ PyStr.str_of_Z (end_line chunk);
     meta_docstring := chunk_docstring chunk |}.

Definition batch_size : nat := 1000.

(** [l[i:i + batch_size]] *)
Definition batch_at {A : Type} (i : nat) (l : list A) : list A :=
  take batch_size (drop i l).

(** The [for i in range(0, len(ids), batch_size)] loop of
    [insert_embeddings]; it stops at the first batch that raises. *)
Fixpoint add_batches (starts : list nat) (name : string) (ids documents : list string)
    (metadatas : list chunk_meta) (embeddings : list NdArray) (st : store)
    : outcome unit * store :=
  match starts with
  | [] => (Returns tt, st)
  | i :: rest =>
      match collection_add name (batch_at i ids) (batch_at i documents)
              (batch_at i metadatas) (batch_at i embeddings) st with
      | (Returns _, st1) => add_batches rest name ids documents metadatas embeddings st1
      | (Raises e, st1) => (Raises e, st1)
      end
  end.

(** [insert_embeddings] *)
Definition insert_embeddings (session_id : string) (chunks : list CodeChunk)
    (embeddings : list NdArray) (st : store) : outcome unit * store :=
  let name := collection_name session_id in
  match st !! name with
  | None =>
      (Raises (Exn VectorDBException
                 ("Failed to insert embeddings: " +:+ exn_str (does_not_exist name))), st)
  | Some _ =>
      let ids := map chunk_id chunks in
      let documents := map chunk_code chunks in
      let metadatas := map metadata_of chunks in
      match add_batches (PyStr.py_range 0 (length ids) batch_size) name
              ids documents metadatas embeddings st with
      | (Returns _, st1) => (Returns tt, st1)
      | (Raises e, st1) =>
          (Raises (Exn VectorDBException ("Failed to insert embeddings: " +:+ exn_str e)), st1)
      end
  end.

(** The [i]-th dict of the result list of [search_similar]; [None] is an
    [IndexError] of one of the four subscripts. *)
Definition format_hit (results : query_result) (i : nat) : option (hit PyFloat) :=
  id ← res_ids results !! 0 ≫= (.!! i);
  code ← res_documents results !! 0 ≫= (.!! i);
  metadata ← res_metadatas results !! 0 ≫= (.!! i);
  distance ← res_distances results !! 0 ≫= (.!! i);
  Some (Hit id code metadata distance).

(** The [for i in range(len(results['ids'][0]))] loop. *)
Definition format_results (results : query_result) : option (list (hit PyFloat)) :=
  ids0 ← res_ids results !! 0;
  mapM (format_hit results) (seq 0 (length ids0)).

Definition search_failed (e : exn) : exn :=
  Exn VectorDBException ("Failed to search: " +:+ exn_str e).

(** [search_similar]: the store is only read. *)
Definition search_similar (session_id : string) (query_embedding : NdArray)
    (top_k : nat) (st : store) : outcome (list (hit PyFloat)) :=
  let name := collection_name session_id in
  match st !! name with
  | None => Raises (search_failed (does_not_exist name))
  | Some entries =>
      match collection_query entries query_embedding top_k with
      | Raises e => Raises (search_failed e)
      | Returns results =>
          match format_results results with
          | Some chunks => Returns chunks
          | None => Raises (search_failed (Exn OtherError "list index out of range"))
          end
      end
  end.

(** [delete_collection]: errors are logged, never raised. *)
Definition delete_collection (session_id : string) (st : store) : store :=
  snd (client_delete_collection (collection_name session_id) st).

(** [get_collection_count]: the number of entries of the collection, or 0
    when there is none. *)
Definition get_collection_count (session_id : string) (st : store) : nat :=
  match st !! collection_name session_id with
  | Some entries => length entries
  | None => 0
  end.

End Service.

Abbreviation store := (gmap string (list entry)).


End Vector.

(** ** Orchestrator: [rag_service.py] *)

Module RAG.
Import Parser Embedding Vector.

(** The dict [index_codebase] returns (the rounded duration left out). *)
Record index_result : Type := IndexResult {
  ir_session_id : string;
  chunks_indexed : nat;
  embeddings_generated : nat;
  ir_status : string
}.

Section Service.
Context `{EmbeddingModel} `{!Chroma}.

(** [index_codebase]: embed, create the collection, insert; whatever is raised
    is logged and raised again. *)
Definition index_codebase (session_id : string) (chunks : list CodeChunk)
    (st : store) : outcome index_result * store :=
  match generate_embeddings chunks with
  | Raises e => (Raises e, st)
  | Returns embeddings =>
      match create_collection session_id st with
      | (Raises e, st1) => (Raises e, st1)
      | (Returns _, st1) =>
          match insert_embeddings session_id chunks embeddings st1 with
          | (Raises e, st2) => (Raises e, st2)
          | (Returns _, st2) =>
              (Returns {| ir_session_id := session_id;
                          chunks_indexed := length chunks;
                          embeddings_generated := length embeddings;
                          ir_status := "success" |}, st2)
          end
      end
  end.

End Service.

(** *** Queries *)

(** One dict of the list [_extract_code_snippets] returns. *)
Record code_snippet : Type := CodeSnippet {
  cs_file : string;
  cs_lines : string;
  cs_code : string;
  cs_language : string;
  cs_type : string;
  cs_name : string
}.

(** [settings.max_chunks_per_query] *)
Class QuerySettings : Type := {
  max_chunks_per_query : nat
}.

Section Query.
Context `{EmbeddingModel} `{!Chroma} `{!LLM.OpenRouter} `{!QuerySettings}.

(** The dict [process_query] returns (the rounded processing time left out).
    [relevant_files] is [list(set(...))]: the file paths without duplicates,
    in an order the interpreter chooses; the model keeps the set. *)
Record query_answer : Type := QueryAnswer {
  qa_answer : string;
  qa_code_snippets : list code_snippet;
  qa_relevant_files : gset string;
  qa_chunks_retrieved : nat;
  qa_model_used : option string;
  qa_tokens : option LLM.tokens;
  qa_cost : option PyFloat
}.

(** [_extract_code_snippets] *)
Definition snippet_of (chunk : hit PyFloat) : code_snippet :=
  let metadata := hit_metadata chunk in
  {| cs_file := meta_file_path metadata;
     cs_lines := meta_lines metadata;
     cs_code := hit_code chunk;
     cs_language := meta_language metadata;
     cs_type := meta_type metadata;
     cs_name := meta_name metadata |}.

Definition _extract_code_snippets (chunks : list (hit PyFloat)) : list code_snippet :=
  map snippet_of chunks.

(** [process_query]: embed the question, search the session's collection,
    ask the models; whatever is raised is logged and raised again. The vector
    store is only read. *)
Definition process_query (session_id question : string) (model : option string)
    (st : store) (net : LLM.net) : outcome query_answer * LLM.net :=
  match generate_single_embedding question with
  | Raises e => (Raises e, net)
  | Returns query_embedding =>
      match search_similar session_id query_embedding max_chunks_per_query st with
      | Raises e => (Raises e, net)
      | Returns similar_chunks =>
          match LLM.generate_explanation question similar_chunks model net with
          | (Raises e, net') => (Raises e, net')
          | (Returns llm_result, net') =>
              (Returns
                 {| qa_answer := LLM.answer llm_result;
                    qa_code_snippets := _extract_code_snippets similar_chunks;
                    qa_relevant_files :=
                      list_to_set (map (fun chunk => meta_file_path (hit_metadata chunk))
                                     similar_chunks);
                    qa_chunks_retrieved := length similar_chunks;
                    qa_model_used := Some (LLM.model_used llm_result);
                    qa_tokens := LLM.exp_tokens llm_result;
                    qa_cost := LLM.exp_cost llm_result |}, net')
          end
      end
  end.

End Query.

End RAG.

(** ** Session store: [session_service.py] *)

Module Session.

(** The values of a session dict, as JSON carries them. *)
Inductive jval : Type :=
  | JNull
  | JBool (b : bool)
  | JInt (z : Z)
  | JStr (s : string)
  | JList (l : list jval)
  | JDict (l : list (string * jval)).

(** What [json.loads] returns: a dict, or some other JSON value. *)
Inductive loaded : Type :=
  | LDict (d : gmap string jval)
  | LOther (v : jval).

(** A key of the Redis database: its value and the time it expires at. *)
Record redis_entry : Type := RedisEntry {
  value : string;
  expires_at : Z
}.

Abbreviation redis := (gmap string redis_entry).

(** [json.dumps] and [json.loads] ([None]: a [JSONDecodeError]),
    [datetime.isoformat] of a time in seconds, and [settings.session_ttl]. *)
Class SessionEnv : Type := {
  json_dumps : gmap string jval -> string;
  json_loads : string -> option loaded;
  isoformat : Z -> string;
  session_ttl : Z
}.

(** [GET key] at time [now]: an expired key is gone. *)
Definition redis_get (now : Z) (key : string) (st : redis) : option string :=
  match st !! key with
  | Some e => if (now <? expires_at e)%Z then Some (value e) else None
  | None => None
  end.

(** [SETEX key seconds value] at time [now]; Redis rejects a lifetime that is
    not positive. *)
Definition redis_setex (now : Z) (key : string) (seconds : Z) (v : string) (st : redis)
    : outcome unit * redis :=
  if (0 <? seconds)%Z
  then (Returns tt, <[key := {| value := v; expires_at := (now + seconds)%Z |}]> st)
  else (Raises (Exn OtherError "invalid expire time in 'setex' command"), st).

(** [TTL key] at time [now], for a key that is there. *)
Definition redis_ttl (now : Z) (key : string) (st : redis) : option Z :=
  match st !! key with
  | Some e => if (now <? expires_at e)%Z then Some (expires_at e - now)%Z else None
  | None => None
  end.

Definition session_key (session_id : string) : string :=
  "session:" +:+ session_id.

Definition not_found (session_id : string) : exn :=
  Exn SessionNotFoundException ("Session not found: " +:+ session_id).

Section Service.
Context `{SessionEnv}.

(** [get_session]: a missing key, an empty value and a value that is not JSON
    are all [SessionNotFoundException]. *)
Definition get_session (now : Z) (session_id : string) (st : redis) : outcome loaded :=
  match redis_get now (session_key session_id) st with
  | None => Raises (not_found session_id)
  | Some data =>
      if PyStr.truthy data then
        match json_loads data with
        | Some session_data => Returns session_data
        | None => Raises (not_found session_id)
        end
      else Raises (not_found session_id)
  end.

(** [update_session] at time [now]: both handlers log and raise again. *)
Definition update_session (now : Z) (session_id : string) (updates : gmap string jval)
    (st : redis) : outcome unit * redis :=
  match get_session now session_id st with
  | Raises e => (Raises e, st)
  | Returns (LOther _) =>
      (Raises (Exn OtherError "object has no attribute 'update'"), st)
  | Returns (LDict session_data) =>
      let session_data := updates ∪ session_data in
      let session_data := <["last_activity" := JStr (isoformat now)]> session_data in
      redis_setex now (session_key session_id) session_ttl (json_dumps session_data) st
  end.

(** [delete_session] *)
Definition delete_session (session_id : string) (st : redis) : redis :=
  delete (session_key session_id) st.

End Service.

(** *** Creating, listing and reclaiming sessions *)

(** [settings.temp_folder], and [datetime.fromisoformat] to a time in seconds
    ([None]: a [ValueError]). *)
Class SessionHost : Type := {
  temp_folder : string;
  fromisoformat : string -> option Z
}.

(** [KEYS prefix*] at time [now]: the live keys that start with the prefix,
    in an order of the database's choosing. *)
Definition redis_keys (now : Z) (prefix : string) (st : redis) : list string :=
  filter (fun key => String.prefix prefix key = true
                     /\ is_Some (redis_get now key st))
         (map_to_list st).*1.

Section Lifecycle.
Context `{SessionEnv} `{!SessionHost}.

(** The dict [create_session] stores. The two calls of [datetime.now()] are
    taken at one time. *)
Definition new_session_data (session_id : string) (now : Z) : gmap string jval :=
  list_to_map
    [("session_id", JStr session_id);
     ("created_at", JStr (isoformat now));
     ("last_activity", JStr (isoformat now));
     ("temp_folder", JStr (temp_folder +:+ "/" +:+ session_id));
     ("status", JStr "initializing");
     ("metadata", JDict [])].

(** [create_session], for [uuid.uuid4().hex] being [hex]. *)
Definition create_session (hex : string) (now : Z) (st : redis)
    : outcome string * redis :=
  let session_id := "sess_" +:+ PyStr.str_take 12 hex in
  let session_data := new_session_data session_id now in
  match redis_setex now (session_key session_id) session_ttl
          (json_dumps session_data) st with
  | (Returns _, st') => (Returns session_id, st')
  | (Raises e, st') => (Raises e, st')
  end.


(** [get_all_sessions] *)
Definition get_all_sessions (now : Z) (st : redis) : list string :=
  map (PyStr.str_replace "session:" "") (redis_keys now "session:" st).

(** [get_session_ttl]: Redis answers [-2] for a key that is not there. *)
Definition get_session_ttl (now : Z) (session_id : string) (st : redis) : Z :=
  let ttl := default (-2)%Z (redis_ttl now (session_key session_id) st) in
  if (0 <? ttl)%Z then Z.max 0 ttl else 0%Z.

End Lifecycle.

(** The temporary folders, as [FileService.cleanup_temp_files] acts on them;
    it catches whatever its removal raises. *)
Class TempFiles : Type := {
  Folders : Type;
  cleanup_temp_files : string -> Folders -> Folders
}.

Section Sweep.
Context `{Numbers} `{!Vector.Chroma} `{!SessionEnv} `{!SessionHost} `{!TempFiles}.

(** What the sweep acts on: the session records, the vector collections, the
    temporary folders. *)
Record world : Type := World {
  w_redis : redis;
  w_store : gmap string (list Vector.entry);
  w_folders : Folders
}.

(** The cleanup of one session, as the sweep and the cleanup endpoint do
    it: the files, the collection, the record. *)
Definition cleanup_resources (session_id : string) (w : world) : world :=
  {| w_redis := delete_session session_id (w_redis w);
     w_store := Vector.delete_collection session_id (w_store w);
     w_folders := cleanup_temp_files session_id (w_folders w) |}.

(** The body of the [for session_id in session_ids] loop of
    [auto_cleanup_sessions], at time [now]; the boolean tells whether the
    session was cleaned. A record that is gone, or whose last activity cannot
    be read, is left alone. *)
Definition sweep_session (now : Z) (session_id : string) (w : world) : world * bool :=
  match get_session now session_id (w_redis w) with
  | Returns (LDict session_data) =>
      match session_data !! "last_activity" with
      | Some (JStr text) =>
          match fromisoformat text with
          | Some last_activity =>
              let inactive_duration := (now - last_activity)%Z in
              if (session_ttl <? inactive_duration)%Z
              then (cleanup_resources session_id w, true)
              else (w, false)
          | None => (w, false)
          end
      | _ => (w, false)
      end
  | _ => (w, false)
  end.



End Sweep.

End Session.

(** ** File handling: [file_service.py] *)

Module FileService.

Definition SUPPORTED_EXTENSIONS : list string :=
  [".py"; ".js"; ".jsx"; ".ts"; ".tsx";
   ".java"; ".cpp"; ".c"; ".h"; ".hpp";
   ".go"; ".rs"; ".rb"; ".php"; ".cs";
   ".swift"; ".kt"; ".scala"; ".md"].

(** The directories [get_all_code_files] does not enter. *)
Definition skipped_directories : list string :=
  [".git"; ".svn"; "node_modules"; "__pycache__";
   ".venv"; "venv"; "env"; "build"; "dist";
   ".idea"; ".vscode"; "target"; "bin"; "obj"].

Definition ext_to_lang : list (string * string) :=
  [(".py", "Python"); (".js", "JavaScript"); (".jsx", "JavaScript");
   (".ts", "TypeScript"); (".tsx", "TypeScript"); (".java", "Java");
   (".cpp", "C++"); (".c", "C"); (".go", "Go"); (".rs", "Rust");
   (".rb", "Ruby"); (".php", "PHP"); (".cs", "C#"); (".swift", "Swift");
   (".kt", "Kotlin"); (".scala", "Scala")].

(** A directory as [os.walk] sees it: files with their size ([None] when
    [stat] fails) and directories with their entries, in listing order. *)
Inductive fs_entry : Type :=
  | FsFile (name : string) (st_size : option Z)
  | FsDir (name : string) (entries : list fs_entry).

(** [str(Path(root) / name)], for a root written without a trailing separator. *)
Definition path_join (root name : string) : string := root +:+ "/" +:+ name.

(** [d.get(key)] for a dict written as the list of its items. *)
Fixpoint dict_get {V : Type} (key : string) (items : list (string * V)) : option V :=
  match items with
  | [] => None
  | (k, v) :: rest => if String.eqb k key then Some v else dict_get key rest
  end.

(** [lang_count[lang] = lang_count.get(lang, 0) + 1]: the count is raised in
    place, or the language is added at the end with count 1. *)
Fixpoint bump (lang : string) (lang_count : list (string * nat)) : list (string * nat) :=
  match lang_count with
  | [] => [(lang, 1)]
  | (l, n) :: rest =>
      if String.eqb l lang then (l, S n) :: rest else (l, n) :: bump lang rest
  end.

(** [max(items, key=lambda x: x[1])], from the best item so far: a later item
    wins only with a strictly larger count. *)
Fixpoint max_item (best : string * nat) (items : list (string * nat)) : string * nat :=
  match items with
  | [] => best
  | item :: rest =>
      if (best.2 <? item.2)%nat then max_item item rest else max_item best rest
  end.

Section Service.
Context `{Parser.ParserEnv}.

(** The test of the inner loop of [get_all_code_files] on one entry of a
    directory: the path of a file that is kept. *)
Definition keep_file (root : string) (e : fs_entry) : option string :=
  match e with
  | FsDir _ _ => None
  | FsFile name st_size =>
      let file_path := path_join root name in
      if bool_decide (PyStr.lower (Parser.path_suffix file_path) ∈ SUPPORTED_EXTENSIONS)
      then
        match st_size with
        | Some size => if (1048576 <? size)%Z then None else Some file_path
        | None => Some file_path
        end
      else None
  end.

Definition files_here (root : string) (entries : list fs_entry) : list string :=
  omap (keep_file root) entries.

(** What [os.walk] yields below one entry of a directory, the skipped
    directories pruned: the kept files of the directory, then those of its
    directories in turn. *)
Fixpoint walk_entry (parent : string) (e : fs_entry) : list string :=
  match e with
  | FsFile _ _ => []
  | FsDir name entries =>
      if bool_decide (name ∈ skipped_directories) then []
      else
        let root := path_join parent name in
        files_here root entries ++ concat (map (walk_entry root) entries)
  end.

(** [get_all_code_files(directory)], for a directory with these entries. *)
Definition get_all_code_files (directory : string) (entries : list fs_entry)
    : list string :=
  files_here directory entries ++ concat (map (walk_entry directory) entries).

(** The language a file counts for in [get_language_stats]. *)
Definition language_of (file_path : string) : string :=
  let ext := PyStr.lower (Parser.path_suffix file_path) in
  default "Other" (dict_get ext ext_to_lang).

Definition count_languages (file_paths : list string) : list (string * nat) :=
  fold_left (fun lang_count file_path => bump (language_of file_path) lang_count)
    file_paths [].

Definition primary_language (lang_count : list (string * nat)) : string :=
  match lang_count with
  | [] => "Unknown"
  | item :: rest => (max_item item rest).1
  end.

(** [get_language_stats]: the primary language and the counts. *)
Definition get_language_stats (file_paths : list string)
    : string * list (string * nat) :=
  let lang_count := count_languages file_paths in
  (primary_language lang_count, lang_count).

(** A file is listed below a directory: it is a kept file of the directory,
    or listed below one of its directories that is not skipped. *)
Inductive listed : string -> list fs_entry -> string -> Prop :=
  | listed_here root entries e file_path :
      e ∈ entries -> keep_file root e = Some file_path ->
      listed root entries file_path
  | listed_below root entries name sub file_path :
      FsDir name sub ∈ entries ->
      name ∉ skipped_directories ->
      listed (path_join root name) sub file_path ->
      listed root entries file_path.

End Service.

End FileService.

(** ** Endpoints: [api/query.py], [api/session.py] *)

Module Api.
Import Session.

(** What an endpoint answers: a response body, or an [HTTPException] with
    its status code and detail. *)
Inductive response (A : Type) : Type :=
  | Ok (body : A)
  | HttpError (status_code : nat) (detail : string).
Arguments Ok {A} body.
Arguments HttpError {A} status_code detail.

(** The interpreter and the web framework: [str(e)] of an [HTTPException],
    the text of a JSON value in an f-string, and the text of the [TypeError]
    of [v['status']] for a value that is not a dict. *)
Class ApiHost : Type := {
  http_exception_str : nat -> string -> string;
  jval_str : jval -> string;
  subscript_error_str : jval -> string
}.

(** What the [try] block of an endpoint raises: an exception of a service or
    of the interpreter, or an [HTTPException] raised in the block itself. *)
Inductive raised : Type :=
  | ServiceError (e : exn)
  | HttpRaised (status_code : nat) (detail : string).

(** The two handlers of [query_codebase] and of [cleanup_session]: a
    [SessionNotFoundException] becomes a 404, any other exception - an
    [HTTPException] of the block included - a 500 with its text as detail. *)
Definition handle `{ApiHost} {A : Type} (r : raised) : response A :=
  match r with
  | ServiceError e =>
      match exn_cls e with
      | SessionNotFoundException => HttpError 404 (exn_str e)
      | _ => HttpError 500 (exn_str e)
      end
  | HttpRaised status_code detail =>
      HttpError 500 (http_exception_str status_code detail)
  end.

(** [session_data['status'] != 'ready'], negated. *)
Definition is_ready (status : jval) : bool :=
  match status with
  | JStr s => String.eqb s "ready"
  | _ => false
  end.

(** The [CodeSnippet] and [QueryResponse] models ([processing_time] left out,
    as in the answer of [process_query]). *)
Record CodeSnippet : Type := {
  rs_file : string;
  rs_lines : string;
  rs_code : string;
  rs_language : option string
}.

Record QueryResponse `{Numbers} : Type := {
  qr_status : string;
  qr_answer : string;
  qr_code_snippets : list CodeSnippet;
  qr_relevant_files : gset string;
  qr_model_used : option string;
  qr_tokens : option LLM.tokens;
  qr_cost : option PyFloat
}.

Section Query.
Context `{Embedding.EmbeddingModel} `{!Vector.Chroma} `{!LLM.OpenRouter}
  `{!RAG.QuerySettings} `{!SessionEnv} `{!ApiHost}.

(** The conversion of the result of [process_query] to the response. *)
Definition to_response (result : RAG.query_answer) : QueryResponse :=
  let code_snippets :=
    map (fun snippet =>
           {| rs_file := RAG.cs_file snippet;
              rs_lines := RAG.cs_lines snippet;
              rs_code := RAG.cs_code snippet;
              rs_language := Some (RAG.cs_language snippet) |})
        (RAG.qa_code_snippets result) in
  {| qr_status := "success";
     qr_answer := RAG.qa_answer result;
     qr_code_snippets := code_snippets;
     qr_relevant_files := RAG.qa_relevant_files result;
     qr_model_used := RAG.qa_model_used result;
     qr_tokens := RAG.qa_tokens result;
     qr_cost := RAG.qa_cost result |}.

(** The [try] block of [query_codebase] at time [now], on the session
    records and the endpoint of the models; the vector store is only read. *)
Definition query_body (session_id question : string) (model : option string)
    (now : Z) (st : redis) (store : Vector.store) (net : LLM.net)
    : (raised + QueryResponse) * redis * LLM.net :=
  match get_session now session_id st with
  | Raises e => (inl (ServiceError e), st, net)
  | Returns (LOther v) =>
      (inl (ServiceError (Exn OtherError (subscript_error_str v))), st, net)
  | Returns (LDict session_data) =>
      match session_data !! "status" with
      | None => (inl (ServiceError (Exn OtherError "'status'")), st, net)
      | Some status =>
          if is_ready status then
            match update_session now session_id ∅ st with
            | (Raises e, st') => (inl (ServiceError e), st', net)
            | (Returns _, st') =>
                match RAG.process_query session_id question model store net with
                | (Raises e, net') => (inl (ServiceError e), st', net')
                | (Returns result, net') => (inr (to_response result), st', net')
                end
            end
          else
            (inl (HttpRaised 400
                    ("Session is not ready. Current status: " +:+ jval_str status)),
             st, net)
      end
  end.

(** [query_codebase] *)
Definition query_codebase (session_id question : string) (model : option string)
    (now : Z) (st : redis) (store : Vector.store) (net : LLM.net)
    : response QueryResponse * redis * LLM.net :=
  match query_body session_id question model now st store net with
  | (inl r, st', net') => (handle r, st', net')
  | (inr body, st', net') => (Ok body, st', net')
  end.

End Query.

Section Cleanup.
Context `{Numbers} `{!Vector.Chroma} `{!SessionEnv} `{!SessionHost} `{!TempFiles}
  `{!ApiHost}.

(** [cleanup_session] at time [now]; the body of the answer is its
    message. *)
Definition cleanup_session (session_id : string) (now : Z) (w : world)
    : response string * world :=
  match get_session now session_id (w_redis w) with
  | Raises e => (handle (ServiceError e), w)
  | Returns _ =>
      (Ok ("Session " +:+ session_id +:+ " cleaned up successfully"),
       cleanup_resources session_id w)
  end.

End Cleanup.

End Api.

(** ** Settings: [config.py] *)

Module Config.

Definition comma : ascii := ","%char.

(** [Settings.fallback_models_list], of the setting [fallback_models]. *)
Definition fallback_models_list (fallback_models : string) : list string :=
  if PyStr.truthy fallback_models
  then map PyStr.strip (PyStr.split_on comma fallback_models)
  else [].

(** [Settings.cors_origins_list], of the setting [cors_origins]. *)
Definition cors_origins_list (cors_origins : string) : list string :=
  map PyStr.strip (PyStr.split_on comma cors_origins).

(** A model name as the settings can list it: no comma in it, no white space
    around it. *)
Definition plain_name (name : string) : Prop :=
  PyStr.has_char comma name = false /\ PyStr.strip name = name.

End Config.

(** ** Sample backends

    Small concrete worlds on which the services can be run. *)

Module Samples.

(** Floats and arrays stood in for by integers and lists of integers. *)
Definition sample_numbers : Numbers :=
  {| PyFloat := Z; NdArray := list Z; float_le := Z.le |}.

#[local] Existing Instance sample_numbers.

(** An endpoint whose first request times out and whose later requests are
    answered. *)
Definition flaky_router : @LLM.OpenRouter sample_numbers :=
  @LLM.Build_OpenRouter sample_numbers
    (fun n _ _ =>
       if (n =? 0)%nat then Raises (Exn TimeoutException "Request timed out.")
       else Returns (LLM.Response ["It parses files."] (Some (LLM.Usage 10 5 15)) None))
    (fun _ => Returns 0%Z)
    "google/gemini-flash-1.5"
    ["google/gemini-pro"; "meta-llama/llama-3-8b-instruct"]
    true.

(** A small file system: a Python file with one class and one method, three
    empty files, and a text file of 2500 characters. *)
Definition shapes_source : string :=
  "class Shape:" +:+ NL +:+
  "    def area(self):" +:+ NL +:+
  "        return 0" +:+ NL.

Definition area_def : Parser.def_info :=
  {| Parser.def_name := "area"; Parser.lineno := 2;
     Parser.end_lineno := Some 3%Z; Parser.get_docstring := None |}.

Definition shape_def : Parser.def_info :=
  {| Parser.def_name := "Shape"; Parser.lineno := 1;
     Parser.end_lineno := Some 3%Z; Parser.get_docstring := None |}.

(** [ast.parse(shapes_source)]: the class, and in it the method with its
    arguments and its return statement. *)
Definition shapes_tree : Parser.node :=
  Parser.Module_
    [Parser.ClassDef shape_def
       [Parser.FunctionDef area_def
          [Parser.OtherNode [Parser.OtherNode []];
           Parser.OtherNode [Parser.OtherNode []]]]].

Fixpoint repeat_string (k : nat) (s : string) : string :=
  match k with
  | 0 => ""
  | S k' => s +:+ repeat_string k' s
  end.

Definition notes_source : string := repeat_string 250 "0123456789".

(** The part of a name from its last dot on. *)
Fixpoint suffix_of (s : string) : string :=
  match s with
  | "" => ""
  | String c r =>
      match suffix_of r with
      | "" => if Ascii.eqb c "."%char then s else ""
      | t => t
      end
  end.

Definition sample_files : Parser.ParserEnv :=
  {| Parser.read_text path :=
       if String.eqb path "shapes.py" then Returns shapes_source
       else if String.eqb path "notes.txt" then Returns notes_source
       else if String.eqb path "empty.py" || String.eqb path "empty.js"
               || String.eqb path "empty.txt" then Returns ""
       else Raises (Exn OtherError ("No such file or directory: " +:+ path));
     Parser.relpath path _ := path;
     Parser.path_suffix := suffix_of;
     Parser.path_stem path :=
       PyStr.str_take (String.length path - String.length (suffix_of path)) path;
     Parser.ast_parse content :=
       if String.eqb content shapes_source then Returns shapes_tree
       else if String.eqb content "" then Returns (Parser.Module_ [])
       else Raises (Exn OtherError "invalid syntax");
     Parser.func_finditer _ := [];
     Parser.max_chunk_size := 1000 |}.

(** An embedding model that maps a text to its length, and one that fails. *)
Definition sample_model : @Embedding.EmbeddingModel sample_numbers :=
  @Embedding.Build_EmbeddingModel sample_numbers
    (fun texts => Returns ((fun t => [Z.of_nat (String.length t)]) <$> texts))
    (fun text => Returns [Z.of_nat (String.length text)]).

Definition broken_model : @Embedding.EmbeddingModel sample_numbers :=
  @Embedding.Build_EmbeddingModel sample_numbers
    (fun _ => Raises (Exn OtherError "CUDA out of memory"))
    (fun _ => Raises (Exn OtherError "CUDA out of memory")).

(** Squared Euclidean distance of two integer vectors. *)
Definition dist2 (a b : list Z) : Z :=
  foldr Z.add 0%Z (zip_with (fun x y => (x - y) * (x - y))%Z a b).

Definition by_distance {A : Type} (a b : Z * A) : Prop := (a.1 <= b.1)%Z.

#[global] Instance by_distance_dec {A} (a b : Z * A) : Decision (by_distance a b).
Proof. unfold by_distance. apply _. Defined.

(** A vector database that ranks the entries of a collection by distance to
    the query and returns the [k] nearest. *)
Definition sample_query (entries : list (@Vector.entry sample_numbers))
    (q : list Z) (k : nat) : outcome (@Vector.query_result sample_numbers) :=
  let ranked :=
    take k (merge_sort by_distance
              ((fun e => (dist2 q (Vector.entry_embedding e), e)) <$> entries)) in
  Returns (@Vector.QueryResult sample_numbers
             [(fun r => Vector.entry_id r.2) <$> ranked]
             [(fun r => Vector.entry_document r.2) <$> ranked]
             [(fun r => Vector.entry_metadata r.2) <$> ranked]
             [fst <$> ranked]).

Definition sample_chroma : @Vector.Chroma sample_numbers :=
  @Vector.Build_Chroma sample_numbers (fun _ => true) (fun _ _ => true) sample_query.

(** The same database, with a collection that rejects every batch. *)
Definition full_chroma : @Vector.Chroma sample_numbers :=
  @Vector.Build_Chroma sample_numbers (fun _ => true) (fun _ _ => false) sample_query.

Definition sample_meta (name : string) : chunk_meta :=
  {| meta_file_path := "auth.py"; meta_type := "function"; meta_name := name;
     meta_language := "python"; meta_lines := "1-6"; meta_docstring := "" |}.

(** A store with one collection of three entries, and what the database
    answers when asked for the two entries nearest to [[5]]. *)
Definition sample_entries : list (@Vector.entry sample_numbers) :=
  [ @Vector.Entry sample_numbers "chunk_000001" "def a(): pass" (sample_meta "a") [9%Z];
    @Vector.Entry sample_numbers "chunk_000002" "def b(): pass" (sample_meta "b") [2%Z];
    @Vector.Entry sample_numbers "chunk_000003" "def c(): pass" (sample_meta "c") [4%Z] ].

Definition sample_store : gmap string (list (@Vector.entry sample_numbers)) :=
  {[ "session_s1" := sample_entries ]}.


Definition sample_chunk (n : nat) (name : string) : Parser.CodeChunk :=
  {| Parser.chunk_id := "chunk_" +:+ PyStr.fmt_06d n;
     Parser.chunk_type := "function";
     Parser.chunk_name := name;
     Parser.chunk_code := "def " +:+ name +:+ "(): pass";
     Parser.chunk_file_path := "auth.py";
     Parser.start_line := 1;
     Parser.end_line := 6;
     Parser.chunk_language := "python";
     Parser.chunk_docstring := "";
     Parser.chunk_imports := [] |}.

(** A codec that keeps only the status of a session, a clock that prints
    seconds, and the default lifetime of an hour. *)
Definition sample_session_env : Session.SessionEnv :=
  {| Session.json_dumps d :=
       match d !! "status" with
       | Some (Session.JStr status) => status
       | _ => "unknown"
       end;
     Session.json_loads data := Some (Session.LDict {[ "status" := Session.JStr data ]});
     Session.isoformat now := PyStr.str_of_Z now;
     Session.session_ttl := 3600 |}.

(** A Redis database with one session, stored at time 0. *)
Definition sample_redis : gmap string Session.redis_entry :=
  {[ "session:sess_1" := Session.RedisEntry "parsing" 3600 ]}.

(** Two retrieved chunks. *)
Definition sample_hits : list (hit Z) :=
  [ Hit "chunk_000003" "def c(): pass" (sample_meta "c") 1%Z;
    Hit "chunk_000002" "def b(): pass" (sample_meta "b") 9%Z ].

(** A JavaScript function whose body holds a nested block, followed by a
    call. *)
Definition widget_before : string := "function f() {".

Definition widget_body : string :=
  " if (x) " +:+ String "{" (" y(); " +:+ String "}" NL).

Definition widget_rest : string := NL +:+ "g();".

Definition widget_source : string :=
  widget_before +:+ widget_body +:+ String "}" widget_rest.

Definition sample_query_settings : RAG.QuerySettings :=
  {| RAG.max_chunks_per_query := 5 |}.

(** A codec for session dicts that writes their five text fields on one line,
    separated by bars, and reads them back; a clock that counts seconds. *)
Definition text_field (d : gmap string Session.jval) (key : string) : string :=
  match d !! key with
  | Some (Session.JStr s) => s
  | _ => ""
  end.

Definition bar : ascii := "|"%char.

Definition line_codec_env : Session.SessionEnv :=
  {| Session.json_dumps d :=
       PyStr.join "|"
         (text_field d <$>
            ["session_id"; "created_at"; "last_activity"; "temp_folder"; "status"]);
     Session.json_loads data :=
       match PyStr.split_on bar data with
       | [a; b; c; e; f] =>
           Some (Session.LDict
                   (list_to_map
                      [("session_id", Session.JStr a);
                       ("created_at", Session.JStr b);
                       ("last_activity", Session.JStr c);
                       ("temp_folder", Session.JStr e);
                       ("status", Session.JStr f);
                       ("metadata", Session.JDict [])]))
       | _ => None
       end;
     Session.isoformat now := PyStr.str_of_Z now;
     Session.session_ttl := 3600 |}.

Definition sample_host : Session.SessionHost :=
  {| Session.temp_folder := "/tmp/coderag_sessions";
     Session.fromisoformat text := Z.of_nat <$> PyStr.digits_value text |}.

(** Temporary folders as the set of the sessions that have one. *)
Definition sample_temp_files : Session.TempFiles :=
  {| Session.Folders := gset string;
     Session.cleanup_temp_files session_id folders := folders ∖ {[ session_id ]} |}.

Definition sample_hex : string := "0123456789abcdef0123456789abcdef".

(** The record of the session created at time 0, set to expire at time
    [expiry]. *)
Definition sample_record (expiry : Z) : Session.redis_entry :=
  Session.RedisEntry
    (@Session.json_dumps line_codec_env
       (@Session.new_session_data line_codec_env sample_host "sess_0123456789ab" 0))
    expiry.

Definition sample_world (expiry : Z)
    : @Session.world sample_numbers sample_temp_files :=
  @Session.World sample_numbers sample_temp_files
    {[ "session:sess_0123456789ab" := sample_record expiry ]}
    {[ "session_sess_0123456789ab" := sample_entries ]}
    {[ "sess_0123456789ab" ]}.

(** The texts of the web framework: an [HTTPException] prints as its status
    code and its detail. *)
Definition sample_api_host : Api.ApiHost :=
  {| Api.http_exception_str status_code detail :=
       PyStr.str_of_Z (Z.of_nat status_code) +:+ ": " +:+ detail;
     Api.jval_str v := match v with Session.JStr s => s | _ => "None" end;
     Api.subscript_error_str _ := "object is not subscriptable" |}.

(** One session of the status-only codec, stored at time 0 with the given
    status; its collection is the indexed sample. *)
Definition status_redis (status : string) : gmap string Session.redis_entry :=
  {[ "session:s1" := Session.RedisEntry status 3600 ]}.

(** A question about the indexed sample, asked at time 10 of the session
    whose record has the given status. *)
Definition ask_sample (status : string) :=
  @Api.query_codebase _ sample_model sample_chroma flaky_router sample_query_settings
    sample_session_env sample_api_host
    "s1" "How does it work?" None 10 (status_redis status) sample_store (LLM.Net [] []).

(** The cleanup endpoint for the session of [sample_world]. *)
Definition cleanup_sample (now : Z) :=
  @Api.cleanup_session _ line_codec_env sample_temp_files sample_api_host
    "sess_0123456789ab" now.

End Samples.

(** * Properties *)

Module PyStrFacts.
Import PyStr.

Lemma str_app_cons c s t : String c s +:+ t = String c (s +:+ t).
Proof. reflexivity. Qed.

Lemma str_app_empty_l t : "" +:+ t = t.
Proof. reflexivity. Qed.

Lemma str_take_length n s : String.length (str_take n s) = Nat.min n (String.length s).
Proof.
  revert s; induction n as [|n IH]; intros [|c r]; simpl; auto.
Qed.

Lemma str_take_all n s : String.length s <= n -> str_take n s = s.
Proof.
  revert s; induction n as [|n IH]; intros [|c r]; simpl; intros H; auto; try lia.
  f_equal. apply IH. lia.
Qed.

Lemma str_take_drop n s : str_take n s +:+ str_drop n s = s.
Proof.
  revert s; induction n as [|n IH]; intros [|c r]; simpl; auto.
  rewrite str_app_cons. f_equal. apply IH.
Qed.

Lemma count_nl_app s t : count_nl (s +:+ t) = count_nl s + count_nl t.
Proof.
  induction s as [|c r IH]; [reflexivity|].
  rewrite str_app_cons. simpl. rewrite IH. lia.
Qed.

(** A longer prefix of the same text has at least as many newlines. *)
Lemma count_nl_take_mono i j s :
  i <= j -> count_nl (str_take i s) <= count_nl (str_take j s).
Proof.
  revert j s; induction i as [|i IH]; intros j s Hij.
  - destruct s; simpl; lia.
  - destruct j as [|j]; [lia|]. destruct s as [|c r]; simpl; [lia|].
    specialize (IH j r). lia.
Qed.

Lemma str_app_assoc s t u : (s +:+ t) +:+ u = s +:+ (t +:+ u).
Proof.
  induction s as [|c r IH]; [reflexivity|].
  by rewrite !str_app_cons, IH.
Qed.

Lemma str_app_length s t : String.length (s +:+ t) = String.length s + String.length t.
Proof.
  induction s as [|c r IH]; [reflexivity|].
  rewrite str_app_cons. simpl. by rewrite IH.
Qed.

(** [range(start, stop, step)] has as many elements as there are steps of
    size [step] from [start] to below [stop]. *)
Lemma range_from_length fuel start stop step :
  0 < step -> stop - start <= fuel ->
  length (range_from fuel start stop step) = (stop - start + step - 1) / step.
Proof.
  intros Hstep. revert start.
  induction fuel as [|fuel IH]; intros start Hfuel; simpl.
  - replace (stop - start + step - 1) with (step - 1) by lia.
    symmetry. apply Nat.div_small. lia.
  - destruct (start <? stop)%nat eqn:Hlt.
    + apply Nat.ltb_lt in Hlt. simpl. rewrite IH by lia.
      replace (stop - start + step - 1) with (stop - start - 1 + 1 * step) by lia.
      rewrite Nat.div_add by lia.
      destruct (decide (step <= stop - start)) as [Hge|Hsmall].
      * replace (stop - (start + step) + step - 1) with (stop - start - 1) by lia. lia.
      * replace (stop - (start + step) + step - 1) with (step - 1) by lia.
        rewrite !Nat.div_small by lia. lia.
    + apply Nat.ltb_ge in Hlt.
      replace (stop - start + step - 1) with (step - 1) by lia.
      symmetry. apply Nat.div_small. lia.
Qed.

Lemma py_range_length stop step :
  0 < step -> length (py_range 0 stop step) = (stop + step - 1) / step.
Proof.
  intros Hstep. unfold py_range. rewrite range_from_length by lia.
  by rewrite Nat.sub_0_r.
Qed.

(** Text that is not empty has at least one line. *)
Lemma splitlines_from_some s l : splitlines_from s (Some l) <> [].
Proof.
  revert l. induction s as [|c r IH]; intros l; simpl; [done|].
  destruct (is_linebreak c); [done | apply IH].
Qed.

Lemma splitlines_nonempty s : s <> "" -> 1 <= length (splitlines s).
Proof.
  destruct s as [|c r]; [done|]. intros _. unfold splitlines. simpl.
  destruct (is_linebreak c); simpl; [lia|].
  match goal with
  | |- context [splitlines_from r (Some ?l)] =>
      pose proof (splitlines_from_some r l) as Hne;
      destruct (splitlines_from r (Some l)); [done | simpl; lia]
  end.
Qed.

(** *** Substrings *)

Lemma contains_unfold sub s :
  contains sub s =
    String.prefix sub s || match s with "" => false | String _ r => contains sub r end.
Proof. by destruct s. Qed.

Lemma prefix_empty s : String.prefix "" s = true.
Proof. by destruct s. Qed.

Lemma prefix_app sub s t :
  String.prefix sub s = true -> String.prefix sub (s +:+ t) = true.
Proof.
  revert sub. induction s as [|b s IH]; intros [|a sub]; try done.
  - intros _. apply prefix_empty.
  - rewrite str_app_cons. simpl.
    destruct (ascii_dec a b); [apply IH | done].
Qed.

Lemma prefix_self_app sub t : String.prefix sub (sub +:+ t) = true.
Proof.
  induction sub as [|a sub IH]; [apply prefix_empty|]. rewrite str_app_cons. simpl.
  by destruct (ascii_dec a a).
Qed.

Lemma contains_self_app sub t : contains sub (sub +:+ t) = true.
Proof. rewrite contains_unfold, prefix_self_app. done. Qed.

Lemma contains_self sub : contains sub sub = true.
Proof.
  rewrite contains_unfold.
  assert (String.prefix sub sub = true) as ->; [|done].
  induction sub as [|a sub IH]; [done|]. simpl. by destruct (ascii_dec a a).
Qed.

(** What occurs in a text occurs in it with more text after it, or before. *)
Lemma contains_app_l sub s t : contains sub s = true -> contains sub (s +:+ t) = true.
Proof.
  induction s as [|c r IH]; intros Hs.
  - rewrite contains_unfold in Hs. rewrite orb_false_r in Hs.
    destruct sub; [|done]. by rewrite contains_unfold, prefix_empty.
  - rewrite contains_unfold in Hs. rewrite str_app_cons, contains_unfold.
    apply orb_true_iff in Hs as [Hp|Hr].
    + pose proof (prefix_app sub (String c r) t Hp) as Hp'.
      rewrite str_app_cons in Hp'. by rewrite Hp'.
    + rewrite (IH Hr). apply orb_true_r.
Qed.

Lemma contains_app_r sub s t : contains sub t = true -> contains sub (s +:+ t) = true.
Proof.
  intros Ht. induction s as [|c r IH]; [done|].
  rewrite str_app_cons, contains_unfold, IH. apply orb_true_r.
Qed.

Lemma contains_join sep parts i x sub :
  parts !! i = Some x -> contains sub x = true -> contains sub (join sep parts) = true.
Proof.
  revert i. induction parts as [|p parts IH]; intros i Hi Hx; [done|].
  destruct parts as [|q parts].
  - destruct i; [|done]. simpl in *. by simplify_eq.
  - change (join sep (p :: q :: parts)) with (p +:+ sep +:+ join sep (q :: parts)).
    destruct i as [|i]; simpl in Hi.
    + simplify_eq. by apply contains_app_l.
    + do 2 apply contains_app_r. by apply (IH i).
Qed.

(** *** Splitting at a separator *)

Lemma split_on_no_sep sep s : has_char sep s = false -> split_on sep s = [s].
Proof.
  induction s as [|c r IH]; [done|]. simpl.
  destruct (Ascii.eqb c sep); [done|]. simpl. intros Hr. by rewrite IH.
Qed.

Lemma split_on_app sep p rest :
  has_char sep p = false ->
  split_on sep (p +:+ String sep rest) = p :: split_on sep rest.
Proof.
  induction p as [|c p IH]; intros Hp.
  - rewrite str_app_empty_l. simpl. by rewrite Ascii.eqb_refl.
  - rewrite str_app_cons. simpl in *.
    destruct (Ascii.eqb c sep); [done|]. simpl in Hp. by rewrite IH.
Qed.

(** Splitting what was joined gives the pieces back, when no piece holds the
    separator. *)
Lemma split_on_join sep names :
  names <> [] ->
  Forall (fun n => has_char sep n = false) names ->
  split_on sep (join (String sep "") names) = names.
Proof.
  induction names as [|p names IH]; [done|]. intros _ Hall.
  apply Forall_cons in Hall as [Hp Hall].
  destruct names as [|q names]; [by apply split_on_no_sep|].
  change (join (String sep "") (p :: q :: names))
    with (p +:+ String sep "" +:+ join (String sep "") (q :: names)).
  rewrite str_app_cons, str_app_empty_l, split_on_app by done.
  f_equal. by apply IH.
Qed.

(** *** Numbers in decimal *)

Lemma uint_of_string_zeros k s :
  NilEmpty.uint_of_string (zeros k +:+ s)
  = Nat.iter k Decimal.D0 <$> NilEmpty.uint_of_string s.
Proof.
  induction k as [|k IH].
  - simpl. rewrite str_app_empty_l. by destruct (NilEmpty.uint_of_string s).
  - change (zeros (S k)) with (String "0" (zeros k)).
    rewrite str_app_cons. simpl. rewrite IH.
    by destruct (NilEmpty.uint_of_string s).
Qed.

Lemma of_uint_zeros k d : Nat.of_uint (Nat.iter k Decimal.D0 d) = Nat.of_uint d.
Proof. induction k as [|k IH]; [done|]. simpl. exact IH. Qed.

Lemma digits_value_str_of_nat n : digits_value (str_of_nat n) = Some n.
Proof.
  unfold digits_value, str_of_nat, NilZero.string_of_uint.
  pose proof (DecimalNat.Unsigned.of_to n) as Hn.
  destruct (Nat.to_uint n) eqn:Hd; try (rewrite NilEmpty.usu; simpl; by rewrite Hn).
  simpl. f_equal. rewrite <- Hn. reflexivity.
Qed.

(** The six-digit form of a number reads back as the number. *)
Lemma digits_value_fmt_06d n : digits_value (fmt_06d n) = Some n.
Proof.
  pose proof (digits_value_str_of_nat n) as Hn.
  unfold digits_value, fmt_06d in *. rewrite uint_of_string_zeros.
  destruct (NilEmpty.uint_of_string (str_of_nat n)) as [d|]; [|done].
  simpl in *. by rewrite of_uint_zeros.
Qed.

Lemma fmt_06d_inj n m : fmt_06d n = fmt_06d m -> n = m.
Proof.
  intros Heq. pose proof (digits_value_fmt_06d n) as Hn.
  rewrite Heq, digits_value_fmt_06d in Hn. by simplify_eq.
Qed.

(** *** Slices of a text *)

Lemma str_app_empty_r s : s +:+ "" = s.
Proof. induction s as [|c r IH]; [done|]. by rewrite str_app_cons, IH. Qed.

Lemma str_drop_length n s : String.length (str_drop n s) = String.length s - n.
Proof. revert s; induction n as [|n IH]; intros [|c r]; simpl; auto. Qed.

Lemma str_drop_ge n s : String.length s <= n -> str_drop n s = "".
Proof.
  revert s; induction n as [|n IH]; intros [|c r]; simpl; intros Hn; auto; try lia.
  apply IH. lia.
Qed.

Lemma str_drop_add n m s : str_drop (n + m) s = str_drop m (str_drop n s).
Proof.
  revert s; induction n as [|n IH]; intros s; [done|].
  destruct s as [|c r]; simpl; [by destruct m | apply IH].
Qed.

Lemma str_take_app s t : str_take (String.length s) (s +:+ t) = s.
Proof.
  induction s as [|c r IH]; [by destruct t|].
  rewrite str_app_cons. simpl. by rewrite IH.
Qed.

Lemma str_drop_app s t : str_drop (String.length s) (s +:+ t) = t.
Proof. induction s as [|c r IH]; [done|]. rewrite str_app_cons. simpl. exact IH. Qed.

Lemma str_slice_take_drop i b s : str_slice i (i + b) s = str_take b (str_drop i s).
Proof. unfold str_slice. by replace (i + b - i) with b by lia. Qed.

Lemma join_empty_cons x l : join "" (x :: l) = x +:+ join "" l.
Proof.
  destruct l as [|y l]; [by rewrite str_app_empty_r|].
  change (join "" (x :: y :: l)) with (x +:+ "" +:+ join "" (y :: l)).
  by rewrite str_app_empty_l.
Qed.

(** *** Ranges *)

Lemma range_from_lookup fuel start stop step j x :
  range_from fuel start stop step !! j = Some x ->
  x = start + j * step /\ x < stop.
Proof.
  revert start j. induction fuel as [|fuel IH]; intros start j; simpl; [done|].
  destruct (start <? stop)%nat eqn:Hlt; [|done].
  apply Nat.ltb_lt in Hlt. destruct j as [|j]; simpl.
  - intros [= <-]. lia.
  - intros Hj. apply IH in Hj. lia.
Qed.

(** The windows of a text, taken at the starts of the range, make up the
    text. *)
Lemma join_range_from content b fuel start :
  0 < b -> String.length content - start <= fuel ->
  join "" ((fun i => str_slice i (i + b) content)
             <$> range_from fuel start (String.length content) b)
  = str_drop start content.
Proof.
  intros Hb. revert start. induction fuel as [|fuel IH]; intros start Hfuel; simpl.
  - symmetry. apply str_drop_ge. lia.
  - destruct (start <? String.length content)%nat eqn:Hlt.
    + rewrite fmap_cons, join_empty_cons, IH by lia.
      by rewrite str_slice_take_drop, str_drop_add, str_take_drop.
    + apply Nat.ltb_ge in Hlt. symmetry. by apply str_drop_ge.
Qed.

(** *** Replacing *)

Lemma replace_from_absent fuel old new s :
  contains old s = false -> replace_from fuel old new s = s.
Proof.
  revert s. induction fuel as [|fuel IH]; intros s Hs; [done|].
  destruct s as [|c r]; [done|].
  rewrite contains_unfold in Hs. apply orb_false_iff in Hs as [Hp Hr].
  cbn [replace_from]. rewrite Hp. f_equal. by apply IH.
Qed.

(** Taking a prefix off a text by replacing it with nothing gives the rest
    of the text, when the prefix does not occur in the rest. *)
Lemma str_replace_prefix c old rest :
  contains (String c old) rest = false ->
  str_replace (String c old) "" (String c old +:+ rest) = rest.
Proof.
  intros Habsent. unfold str_replace.
  pose proof (prefix_self_app (String c old) rest) as Hp.
  pose proof (str_drop_app (String c old) rest) as Hd.
  rewrite str_app_cons in *. cbn [String.length replace_from] in *.
  rewrite Hp, Hd, str_app_empty_l. by apply replace_from_absent.
Qed.

End PyStrFacts.

(** ** The answer generator *)

Module LLMFacts.
Import LLM.

Lemma after_nil st : after st [] = st.
Proof. destruct st as [cs sl]. unfold after. simpl. by rewrite app_nil_r. Qed.

Lemma after_after st a b : after (after st a) b = after st (a ++ b).
Proof. unfold after. simpl. by rewrite app_assoc. Qed.

Section Service.
Context `{OpenRouter}.

(** Whatever the request raised, the handler raises an [LLMException]. *)
Lemma classify_error_cls model e : exn_cls (classify_error model e) = LLMException.
Proof. unfold classify_error. repeat case_match; reflexivity. Qed.

Lemma classify_error_not_retried model e :
  retry_if_exception_type (classify_error model e) = false.
Proof. unfold retry_if_exception_type. by rewrite classify_error_cls. Qed.

(** The body makes one request, whatever comes of it. *)
Lemma call_model_body_state model prompt st :
  snd (call_model_body model prompt st) = after st [model].
Proof. unfold call_model_body. repeat case_match; reflexivity. Qed.

(** The body raises nothing the retry predicate accepts. *)
Lemma call_model_body_raises model prompt st e :
  fst (call_model_body model prompt st) = Raises e ->
  retry_if_exception_type e = false.
Proof.
  unfold call_model_body.
  repeat case_match; simpl; intros [= <-]; apply classify_error_not_retried.
Qed.

(** So the decorator never takes its retry branch: [_call_model] is its body. *)
Lemma call_model_is_body model prompt st :
  _call_model model prompt st = call_model_body model prompt st.
Proof.
  unfold _call_model. simpl.
  destruct (call_model_body model prompt st) as [[a|e] st1] eqn:E; [reflexivity|].
  rewrite (call_model_body_raises model prompt st e); [reflexivity|].
  by rewrite E.
Qed.

Lemma call_model_state model prompt st :
  snd (_call_model model prompt st) = after st [model].
Proof. rewrite call_model_is_body. apply call_model_body_state. Qed.

Lemma all_fail_nil prompt st : all_fail prompt st [].
Proof. intros i m. by rewrite lookup_nil. Qed.

Lemma all_fail_cons prompt st m failed :
  is_returns (fst (_call_model m prompt st)) = false ->
  all_fail prompt (after st [m]) failed ->
  all_fail prompt st (m :: failed).
Proof.
  intros Hm Hrest [|i] m'; simpl.
  - intros [= <-]. by rewrite after_nil.
  - intros Hi. specialize (Hrest i m' Hi). by rewrite after_after in Hrest.
Qed.

(** The loop over the models: the first model that returns wins, and the
    models before it were each requested once and raised; when none returns,
    all were requested and the error raised carries the text of the last
    one's error. *)
Lemma try_models_spec models prompt last st :
  match try_models models prompt last st with
  | (Returns r, st') =>
      exists failed rest res,
        models = failed ++ model_used r :: rest
        /\ all_fail prompt st failed
        /\ fst (_call_model (model_used r) prompt (after st failed)) = Returns res
        /\ r = {| answer := content res; model_used := model_used r;
                  exp_tokens := Some (res_tokens res); exp_cost := res_cost res |}
        /\ st' = after st (failed ++ [model_used r])
  | (Raises e, st') =>
      all_fail prompt st models
      /\ st' = after st models
      /\ ((models = [] /\
           e = Exn LLMException ("All models failed. Last error: " +:+ str_last_error last))
          \/ exists init m err,
               models = init ++ [m]
               /\ fst (_call_model m prompt (after st init)) = Raises err
               /\ e = Exn LLMException ("All models failed. Last error: " +:+ exn_str err))
  end.
Proof.
  revert last st. induction models as [|m models IH]; intros last st; simpl.
  - split; [apply all_fail_nil|]. split; [by rewrite after_nil|]. by left.
  - pose proof (call_model_state m prompt st) as Hst.
    destruct (_call_model m prompt st) as [[result|e0] st1] eqn:E; simpl in Hst; subst st1.
    + exists [], models, result. simpl. rewrite after_nil, E.
      repeat split; auto using all_fail_nil.
    + specialize (IH (Some e0) (after st [m])).
      destruct (try_models models prompt (Some e0) (after st [m])) as [[r|e] st'].
      * destruct IH as (failed & rest & res & -> & Hfail & Hres & Hr & ->).
        exists (m :: failed), rest, res.
        rewrite after_after in Hres. rewrite after_after.
        repeat split; auto.
        apply all_fail_cons; [by rewrite E | done].
      * destruct IH as (Hfail & -> & Hlast).
        split; [apply all_fail_cons; [by rewrite E | done]|].
        split; [by rewrite after_after|].
        right. destruct Hlast as [[-> ->] | (init & m' & err & -> & Herr & ->)].
        -- exists [], m, e0. simpl. by rewrite after_nil, E.
        -- exists (m :: init), m', err. rewrite after_after in Herr. by repeat split.
Qed.

(** C1, as the code has it. [_call_model] is documented as calling the
    endpoint "with retry logic" and is decorated to retry timeouts and network
    errors up to three times with exponential back-off; but its own handler
    turns every exception of the request into an [LLMException] before the
    decorator sees it. When the request fails with a transient error, the
    call makes that one request, sleeps for no back-off, and raises the
    handler's [LLMException]: the transient failure is not retried. *)
Theorem call_model_transient_not_retried model prompt st e :
  chat_completions_create (length (calls st)) model prompt = Raises e ->
  retry_if_exception_type e = true ->
  let '(r, st') := _call_model model prompt st in
  r = Raises (classify_error model e)
  /\ exn_cls (classify_error model e) = LLMException
  /\ calls st' = calls st ++ [model]
  /\ slept st' = slept st.
Proof.
  intros Hreq _. rewrite call_model_is_body.
  unfold call_model_body. rewrite Hreq.
  repeat split. apply classify_error_cls.
Qed.


(** X1. Whatever the endpoint does, [_call_model] makes exactly one request
    and takes no back-off sleep, and an exception it raises is an
    [LLMException]: neither the exception of the request itself nor a
    [RetryError] ever leaves it. *)
Theorem call_model_single_request model prompt st :
  let '(r, st') := _call_model model prompt st in
  calls st' = calls st ++ [model]
  /\ slept st' = slept st
  /\ forall e, r = Raises e -> exn_cls e = LLMException.
Proof.
  rewrite call_model_is_body.
  pose proof (call_model_body_state model prompt st) as Hst.
  destruct (call_model_body model prompt st) as [r st'] eqn:E.
  simpl in Hst. subst st'. split; [done|]. split; [done|].
  intros e ->. revert E. unfold call_model_body.
  repeat case_match; intros [= <-]; apply classify_error_cls.
Qed.

Lemma context_part_contains i (chunk : hit PyFloat) :
  PyStr.contains (hit_code chunk) (context_part i chunk) = true
  /\ PyStr.contains (meta_file_path (hit_metadata chunk)) (context_part i chunk) = true
  /\ PyStr.contains ("### Code Snippet " +:+ PyStr.str_of_nat i) (context_part i chunk)
     = true.
Proof.
  unfold context_part. split; [|split].
  - do 22 apply PyStrFacts.contains_app_r. apply PyStrFacts.contains_self_app.
  - do 5 apply PyStrFacts.contains_app_r. apply PyStrFacts.contains_self_app.
  - apply PyStrFacts.contains_app_r.
    rewrite <- PyStrFacts.str_app_assoc. apply PyStrFacts.contains_self_app.
Qed.

(** X2. The prompt sent to the models holds the question and, for every
    retrieved chunk, its code, its file path and its numbered heading (the
    [i]-th chunk, counted from zero, is "Code Snippet [i+1]"). *)
Theorem user_prompt_contains question (code_chunks : list (hit PyFloat)) i chunk :
  code_chunks !! i = Some chunk ->
  let prompt := user_prompt question code_chunks in
  PyStr.contains question prompt = true
  /\ PyStr.contains (hit_code chunk) prompt = true
  /\ PyStr.contains (meta_file_path (hit_metadata chunk)) prompt = true
  /\ PyStr.contains ("### Code Snippet " +:+ PyStr.str_of_nat (S i)) prompt = true.
Proof.
  intros Hi prompt. unfold prompt, user_prompt.
  destruct (context_part_contains (S i) chunk) as (Hcode & Hpath & Hhead).
  assert (imap (fun i chunk => context_part (S i) chunk) code_chunks !! i
          = Some (context_part (S i) chunk)) as Hpart.
  { by rewrite list_lookup_imap, Hi. }
  split.
  - do 7 apply PyStrFacts.contains_app_r. apply PyStrFacts.contains_self_app.
  - repeat split; do 3 apply PyStrFacts.contains_app_r;
      apply PyStrFacts.contains_app_l; unfold _build_context;
      by eapply PyStrFacts.contains_join.
Qed.

End Service.

Section Snippets.
Context `{OpenRouter} `{!ModelEndpoint}.

Lemma try_snippet_models_spec models prompt last st :
  match try_snippet_models models prompt last st with
  | (Returns r, st') =>
      exists failed rest,
        models = failed ++ snippet_model_used r :: rest
        /\ (forall i m, failed !! i = Some m ->
              is_returns (snippet_attempt (length (calls st) + i) m prompt) = false)
        /\ snippet_attempt (length (calls st) + length failed)
             (snippet_model_used r) prompt = Returns (snippet_code r)
        /\ st' = after st (failed ++ [snippet_model_used r])
  | (Raises e, st') =>
      (forall i m, models !! i = Some m ->
         is_returns (snippet_attempt (length (calls st) + i) m prompt) = false)
      /\ st' = after st models
      /\ ((models = [] /\
           e = Exn LLMException
                 ("Code generation failed with all models. Last error: "
                  +:+ str_last_error last))
          \/ exists init m err,
               models = init ++ [m]
               /\ snippet_attempt (length (calls st) + length init) m prompt = Raises err
               /\ e = Exn LLMException
                        ("Code generation failed with all models. Last error: "
                         +:+ exn_str err))
  end.
Proof.
  revert last st. induction models as [|m models IH]; intros last st; simpl.
  - split; [by intros i m; rewrite lookup_nil|]. split; [by rewrite after_nil|]. by left.
  - destruct (snippet_attempt (length (calls st)) m prompt) as [code|e0] eqn:E.
    + exists [], models. simpl. rewrite Nat.add_0_r.
      repeat split; try done.
    + specialize (IH (Some e0) (after st [m])).
      assert (forall k, length (calls (after st [m])) + k = length (calls st) + S k)
        as Hshift by (intros k; simpl; rewrite length_app; simpl; lia).
      destruct (try_snippet_models models prompt (Some e0) (after st [m]))
        as [[r|e] st'].
      * destruct IH as (failed & rest & -> & Hfail & Hres & ->).
        exists (m :: failed), rest. rewrite after_after.
        rewrite Hshift in Hres. simpl.
        repeat split; try done.
        intros [|i] m'; simpl.
        -- intros [= <-]. by rewrite Nat.add_0_r, E.
        -- intros Hi. rewrite <- Hshift. by apply Hfail.
      * destruct IH as (Hfail & -> & Hlast).
        split; [|split; [by rewrite after_after|]].
        -- intros [|i] m'; simpl.
           ++ intros [= <-]. by rewrite Nat.add_0_r, E.
           ++ intros Hi. rewrite <- Hshift. by apply Hfail.
        -- right. destruct Hlast as [[-> ->] | (init & m' & err & -> & Herr & ->)].
           ++ exists [], m, e0. simpl. by rewrite Nat.add_0_r, E.
           ++ exists (m :: init), m', err. rewrite Hshift in Herr. by repeat split.
Qed.

(** X3. [generate_code_snippet] asks the same list of models as
    [generate_explanation], each once and in order, with no retry: the first
    model whose request is answered gives the code and [model_used]; when
    every model fails, the [LLMException] raised carries the text of the last
    model's own error, unclassified. *)
Theorem generate_code_snippet_order description context model st :
  let prompt := snippet_prompt description context in
  let models := models_to_try model in
  let n := length (calls st) in
  match generate_code_snippet description context model st with
  | (Returns r, st') =>
      exists failed rest,
        models = failed ++ snippet_model_used r :: rest
        /\ (forall i m, failed !! i = Some m ->
              is_returns (snippet_attempt (n + i) m prompt) = false)
        /\ snippet_attempt (n + length failed) (snippet_model_used r) prompt
           = Returns (snippet_code r)
        /\ calls st' = calls st ++ failed ++ [snippet_model_used r]
        /\ slept st' = slept st
  | (Raises e, st') =>
      (forall i m, models !! i = Some m ->
         is_returns (snippet_attempt (n + i) m prompt) = false)
      /\ calls st' = calls st ++ models
      /\ slept st' = slept st
      /\ exists init last_model last_error,
           models = init ++ [last_model]
           /\ snippet_attempt (n + length init) last_model prompt = Raises last_error
           /\ e = Exn LLMException
                    ("Code generation failed with all models. Last error: "
                     +:+ exn_str last_error)
  end.
Proof.
  intros prompt models n. unfold generate_code_snippet. fold prompt. fold models.
  pose proof (try_snippet_models_spec models prompt None st) as Hspec.
  destruct (try_snippet_models models prompt None st) as [[r|e] st'].
  - destruct Hspec as (failed & rest & Hm & Hfail & Hres & ->).
    exists failed, rest. by repeat split.
  - destruct Hspec as (Hfail & -> & Hlast).
    repeat split; try done.
    destruct Hlast as [[Hnil _] | Hlast]; [|done].
    unfold models, models_to_try in Hnil. discriminate.
Qed.

(** X4. [get_model_info] gives [None] when the listing fails or lists no
    model with the id, and otherwise the first listed model with that id. *)
Theorem get_model_info_first model_id :
  (is_returns fetch_models = false -> get_model_info model_id = None)
  /\ (get_model_info model_id = None <->
      forall m, m ∈ get_available_models -> info_id m <> Some model_id)
  /\ (forall m, get_model_info model_id = Some m ->
      exists i, get_available_models !! i = Some m
                /\ info_id m = Some model_id
                /\ forall j m', get_available_models !! j = Some m' -> j < i ->
                     info_id m' <> Some model_id).
Proof.
  unfold get_model_info. split; [|split].
  - unfold get_available_models. by destruct fetch_models.
  - rewrite fmap_None, list_find_None, Forall_forall. done.
  - intros m Hm. apply fmap_Some in Hm as ([i m'] & Hfind & ->).
    apply list_find_Some in Hfind as (Hi & Hid & Hbefore).
    exists i. simpl. split; [done|]. split; [done|]. exact Hbefore.
Qed.

End Snippets.


#[local] Existing Instance Samples.sample_numbers.
#[local] Existing Instance Samples.flaky_router.

(** On an endpoint whose first request times out, nothing is retried. *)
Lemma call_model_transient_not_retried_witness :
  let st := Net [] [] in
  let e := Exn TimeoutException "Request timed out." in
  chat_completions_create (length (calls st)) "m" "p" = Raises e
  /\ retry_if_exception_type e = true
  /\ let '(r, st') := _call_model "m" "p" st in
     r = Raises (classify_error "m" e)
     /\ exn_cls (classify_error "m" e) = LLMException
     /\ calls st' = calls st ++ ["m"]
     /\ slept st' = slept st.
Proof.
  intros st e.
  split; [reflexivity|]. split; [reflexivity|].
  apply (call_model_transient_not_retried "m" "p" st e); reflexivity.
Defined.

(** The retry policy itself does retry what its predicate accepts: around a
    request that is not wrapped in the handler, the same decorator sleeps two
    seconds after the timeout and succeeds on the second attempt. *)
Example retrying_bare_request :
  let request st :=
    (chat_completions_create (length (calls st)) "m" "p", after st ["m"]) in
  retrying (stop_after_attempt - 1) 1 request (Net [] [])
  = (Returns (Response ["It parses files."] (Some (Usage 10 5 15)) None),
     Net ["m"; "m"] [2]).
Proof. reflexivity. Qed.

(** With the default model timing out, the first fallback model answers. *)
Example generate_explanation_fallback :
  generate_explanation "What does it do?" [] None (Net [] [])
  = (Returns {| answer := "It parses files."; model_used := "google/gemini-pro";
                exp_tokens := Some (Tokens (Some 10) (Some 5) (Some 15));
                exp_cost := None |},
     Net ["google/gemini-flash-1.5"; "google/gemini-pro"] []).
Proof. reflexivity. Qed.

(** The second of two retrieved chunks is in the prompt, as snippet 2. *)
Lemma user_prompt_contains_witness :
  Samples.sample_hits !! 1 = Some (Hit "chunk_000002" "def b(): pass" (Samples.sample_meta "b") 9%Z)
  /\ PyStr.contains "def b(): pass"
       (user_prompt "What does b do?" Samples.sample_hits) = true
  /\ PyStr.contains "### Code Snippet 2"
       (user_prompt "What does b do?" Samples.sample_hits) = true.
Proof.
  split; [reflexivity|].
  destruct (@user_prompt_contains Samples.sample_numbers
              "What does b do?" Samples.sample_hits 1
              (Hit "chunk_000002" "def b(): pass" (Samples.sample_meta "b") 9%Z)
              eq_refl) as (_ & Hcode & _ & Hhead).
  split; [exact Hcode | exact Hhead].
Defined.

End LLMFacts.

(** ** The chunker *)

Module ParserFacts.
Import PyStr PyStrFacts Parser.

Lemma all_nodes_unfold n :
  all_nodes n = n :: concat (map all_nodes (iter_child_nodes n)).
Proof. by destruct n. Qed.

Lemma node_size_unfold n :
  node_size n = S (list_sum (map node_size (iter_child_nodes n))).
Proof. by destruct n. Qed.

(** With one unit of fuel per node in the queue, the loop of [ast.walk]
    yields every node below the queue exactly once. *)
Lemma walk_queue_perm fuel todo :
  list_sum (map node_size todo) <= fuel ->
  walk_queue fuel todo ≡ₚ concat (map all_nodes todo).
Proof.
  revert todo. induction fuel as [|fuel IH]; intros todo Hfuel.
  - destruct todo as [|n rest]; [done|].
    simpl in Hfuel. rewrite node_size_unfold in Hfuel. lia.
  - destruct todo as [|n rest]; [done|]. simpl.
    rewrite IH.
    + rewrite map_app, concat_app, (all_nodes_unfold n). simpl.
      f_equiv. apply Permutation_app_comm.
    + simpl in Hfuel. rewrite node_size_unfold in Hfuel.
      rewrite map_app, list_sum_app. lia.
Qed.

(** [ast.walk] visits every node of the tree, nested ones included, once. *)
Lemma walk_perm tree : walk tree ≡ₚ all_nodes tree.
Proof.
  unfold walk. rewrite walk_queue_perm; simpl; [by rewrite app_nil_r | lia].
Qed.

(** *** Chunk ids *)

Lemma chunk_ids_from_S k n :
  chunk_ids_from k (S n) = ("chunk_" +:+ fmt_06d (S k)) :: chunk_ids_from (S k) n.
Proof.
  unfold chunk_ids_from. simpl. rewrite Nat.add_0_r. f_equal.
  rewrite <- fmap_S_seq, <- list_fmap_compose.
  apply list_fmap_ext. intros i j _. simpl. by rewrite Nat.add_succ_r.
Qed.

Lemma chunk_ids_from_app k n m :
  chunk_ids_from k (n + m) = chunk_ids_from k n ++ chunk_ids_from (k + n) m.
Proof.
  revert k. induction n as [|n IH]; intros k.
  - simpl. by rewrite Nat.add_0_r.
  - change (S n + m) with (S (n + m)).
    rewrite !chunk_ids_from_S, IH.
    by replace (k + S n) with (S k + n) by lia.
Qed.

Lemma chunk_ids_from_NoDup k n : NoDup (chunk_ids_from k n).
Proof.
  unfold chunk_ids_from. apply NoDup_fmap_2_strong; [|apply NoDup_seq].
  intros i j _ _ Heq. apply (inj (String.app "chunk_")) in Heq.
  apply fmt_06d_inj in Heq. lia.
Qed.

Lemma sequential_ids_nil k : sequential_ids k ([], k).
Proof. split; cbn [fst snd length]; [lia | done]. Qed.

Lemma sequential_ids_cons k c cs k' :
  chunk_id c = "chunk_" +:+ fmt_06d (S k) ->
  sequential_ids (S k) (cs, k') ->
  sequential_ids k (c :: cs, k').
Proof.
  intros Hc [Hk Hids]. unfold sequential_ids in *. cbn [fst snd length] in *.
  split; [lia|]. by rewrite fmap_cons, chunk_ids_from_S, Hc, Hids.
Qed.

Lemma sequential_ids_app k a k1 b k2 :
  sequential_ids k (a, k1) -> sequential_ids k1 (b, k2) ->
  sequential_ids k (a ++ b, k2).
Proof.
  intros [Hk1 Ha] [Hk2 Hb]. unfold sequential_ids in *. cbn [fst snd] in *.
  split.
  - rewrite length_app. lia.
  - rewrite fmap_app, length_app, chunk_ids_from_app, Ha, Hb. by rewrite Hk1.
Qed.

(** *** Matching braces *)

Lemma scan_braces_zero rest pos : scan_braces rest 0 pos = pos.
Proof. by destruct rest. Qed.

(** The scan runs over balanced text without changing its depth. *)
Lemma scan_braces_balanced body :
  balanced body ->
  forall rest depth pos,
    scan_braces (body +:+ rest) (S depth) pos
    = scan_braces rest (S depth) (pos + String.length body).
Proof.
  induction 1 as [|c s Hopen Hclose _ IH|s t _ IHs _ IHt]; intros rest depth pos.
  - rewrite str_app_empty_l. simpl. by rewrite Nat.add_0_r.
  - rewrite str_app_cons. cbn [scan_braces String.length].
    apply Ascii.eqb_neq in Hopen, Hclose. rewrite Hopen, Hclose.
    rewrite IH. f_equal. lia.
  - rewrite str_app_cons, str_app_assoc, str_app_cons.
    cbn [scan_braces]. rewrite Ascii.eqb_refl.
    rewrite IHs. cbn [scan_braces].
    replace (Ascii.eqb "}" "{") with false by reflexivity.
    rewrite Ascii.eqb_refl, IHt. f_equal.
    cbn [String.length]. rewrite str_app_length. cbn [String.length]. lia.
Qed.

Section Service.
Context `{ParserEnv}.

(** The loop over the nodes makes one chunk per function or class definition
    node, in the order of the nodes. *)
Lemma python_def_chunks_spec nodes lines rel k :
  Forall2 chunk_of_def (python_def_chunks nodes lines rel k).1
    (omap def_chunk_view nodes).
Proof.
  revert k. induction nodes as [|n nodes IH]; intros k; [constructor|].
  destruct n as [cs|d cs|d cs|d cs|cs]; simpl; try apply IH.
  - specialize (IH (S k)).
    destruct (python_def_chunks nodes lines rel (S k)) as [rest k'].
    constructor; [by repeat split | exact IH].
  - specialize (IH (S k)).
    destruct (python_def_chunks nodes lines rel (S k)) as [rest k'].
    constructor; [by repeat split | exact IH].
Qed.

Lemma python_def_chunks_not_module nodes lines rel k :
  Forall (fun c => ¬ is_module_chunk c) (python_def_chunks nodes lines rel k).1.
Proof.
  revert k. induction nodes as [|n nodes IH]; intros k; [constructor|].
  destruct n as [cs|d cs|d cs|d cs|cs]; simpl; try apply IH.
  - specialize (IH (S k)).
    destruct (python_def_chunks nodes lines rel (S k)) as [rest k'].
    constructor; [by unfold is_module_chunk | exact IH].
  - specialize (IH (S k)).
    destruct (python_def_chunks nodes lines rel (S k)) as [rest k'].
    constructor; [by unfold is_module_chunk | exact IH].
Qed.

Lemma filter_none {A} (P : A -> Prop) `{!forall x, Decision (P x)} (l : list A) :
  Forall (fun x => ¬ P x) l -> filter P l = [].
Proof.
  induction 1 as [|x l Hx _ IH]; [done|].
  by rewrite filter_cons_False.
Qed.

(** C3, as the code has it. For a Python file that reads and parses, the
    chunks are the module chunk, spanning line 1 to the last line, followed by
    one chunk per function definition node and per class definition node that
    [ast.walk] yields, in its order, each with the node's name, its first and
    last line and its docstring; and [ast.walk] yields every node of the
    tree, so methods and nested functions get chunks of their own. *)
Theorem parse_python_file_chunks path base k content tree :
  read_text path = Returns content ->
  ast_parse content = Returns tree ->
  exists module_chunk defs,
    (parse_python_file path base k).1 = module_chunk :: defs
    /\ chunk_view module_chunk =
         ("module", path_stem path, 1%Z, Z.of_nat (length (splitlines content)))
    /\ Forall2 chunk_of_def defs (omap def_chunk_view (walk tree))
    /\ walk tree ≡ₚ all_nodes tree.
Proof.
  intros Hread Hparse. unfold parse_python_file. rewrite Hread, Hparse. simpl.
  pose proof (python_def_chunks_spec (walk tree) (splitlines content)
                (relpath path base) (S k)) as Hdefs.
  destruct (python_def_chunks (walk tree) (splitlines content)
              (relpath path base) (S k)) as [defs k'].
  eexists _, defs. split; [reflexivity|].
  split; [reflexivity|]. split; [exact Hdefs | apply walk_perm].
Qed.

(** *** The regex strategy *)

Lemma scan_braces_ge rest brace_count pos : pos <= scan_braces rest brace_count pos.
Proof.
  revert brace_count pos. induction rest as [|c r IH]; intros [|depth] pos; simpl; try lia.
  etransitivity; [|apply IH]. lia.
Qed.

(** A function found by the pattern ends no earlier than it starts. *)
Lemma javascript_function_chunk_span content lines rel language m k :
  m_start m <= m_end m ->
  span_ok (javascript_function_chunk content lines rel language m k).1.
Proof.
  intros Hm. unfold span_ok, javascript_function_chunk. simpl.
  pose proof (scan_braces_ge (str_drop (m_end m) content) 1 (m_end m)) as Hpos.
  pose proof (count_nl_take_mono (m_start m)
                (scan_braces (str_drop (m_end m) content) 1 (m_end m)) content).
  lia.
Qed.

Lemma javascript_function_chunks_length matches content lines rel language k :
  length (javascript_function_chunks matches content lines rel language k).1
  = length matches.
Proof.
  revert k. induction matches as [|m matches IH]; intros k; [done|]. simpl.
  specialize (IH (S k)).
  destruct (javascript_function_chunks matches content lines rel language (S k)).
  simpl in *. by rewrite IH.
Qed.

Lemma javascript_function_chunks_not_module matches content lines rel language k :
  Forall (fun c => ¬ is_module_chunk c)
    (javascript_function_chunks matches content lines rel language k).1.
Proof.
  revert k. induction matches as [|m matches IH]; intros k; [constructor|]. simpl.
  specialize (IH (S k)).
  destruct (javascript_function_chunks matches content lines rel language (S k)).
  constructor; [by unfold is_module_chunk | exact IH].
Qed.

(** *** The fixed-size strategy *)

Lemma generic_window_chunk_span path rel language content chunk_size i k :
  span_ok (generic_window_chunk path rel language content chunk_size i k).1.
Proof.
  unfold span_ok, generic_window_chunk. simpl.
  pose proof (count_nl_take_mono i
    (i + String.length (str_slice i (i + chunk_size) content)) content).
  lia.
Qed.

Lemma generic_window_chunks_spec starts path rel language content chunk_size k :
  let chunks :=
    (generic_window_chunks starts path rel language content chunk_size k).1 in
  length chunks = length starts
  /\ Forall is_module_chunk chunks
  /\ Forall span_ok chunks.
Proof.
  revert k. induction starts as [|i starts IH]; intros k; simpl; [by repeat split|].
  specialize (IH (S k)). simpl in IH.
  destruct (generic_window_chunks starts path rel language content chunk_size (S k)).
  simpl in *. destruct IH as (Hlen & Hmod & Hspan).
  split; [by rewrite Hlen|]. split; constructor; try done.
  apply (generic_window_chunk_span path rel language content chunk_size i k).
Qed.

(** Every chunk of the fixed-size strategy has its lines in order. *)
Lemma parse_generic_file_span path base k :
  Forall span_ok (parse_generic_file path base k).1.
Proof.
  unfold parse_generic_file.
  destruct (read_text path) as [content|e]; [|constructor].
  destruct (max_chunk_size <=? 0)%Z; [constructor|].
  apply generic_window_chunks_spec.
Qed.

(** C5, as the code has it. In a Python file that parses and in a
    JavaScript or TypeScript file there is exactly one module chunk, and it is
    the only chunk when no definition is recognised; the fixed-size strategy
    has no module chunk of the whole file: it makes one module-kind chunk per
    window of [max_chunk_size] characters, so none for an empty file. *)
Theorem module_chunk_count path base k content :
  read_text path = Returns content ->
  (forall tree, ast_parse content = Returns tree ->
     let chunks := (parse_python_file path base k).1 in
     length (filter is_module_chunk chunks) = 1
     /\ (omap def_chunk_view (walk tree) = [] -> length chunks = 1))
  /\ (let chunks := (parse_javascript_file path base k).1 in
      length (filter is_module_chunk chunks) = 1
      /\ (func_finditer content = [] -> length chunks = 1))
  /\ ((0 < max_chunk_size)%Z ->
      let chunks := (parse_generic_file path base k).1 in
      let size := Z.to_nat max_chunk_size in
      Forall is_module_chunk chunks
      /\ length chunks = (String.length content + size - 1) / size
      /\ (chunks = [] <-> content = "")).
Proof.
  intros Hread. split; [|split].
  - intros tree Hparse chunks. subst chunks.
    unfold parse_python_file. rewrite Hread, Hparse. simpl.
    pose proof (python_def_chunks_spec (walk tree) (splitlines content)
                  (relpath path base) (S k)) as Hdefs.
    pose proof (python_def_chunks_not_module (walk tree) (splitlines content)
                  (relpath path base) (S k)) as Hnot.
    destruct (python_def_chunks (walk tree) (splitlines content)
                (relpath path base) (S k)) as [defs k'].
    simpl in *. split.
    + by rewrite filter_none.
    + intros Hnone. rewrite Hnone in Hdefs. by inversion Hdefs.
  - intros chunks. subst chunks.
    unfold parse_javascript_file. rewrite Hread.
    match goal with
    | |- context [javascript_function_chunks ?ms ?c ?l ?r ?lang k] =>
        pose proof (javascript_function_chunks_length ms c l r lang k) as Hlen;
        pose proof (javascript_function_chunks_not_module ms c l r lang k) as Hnot;
        destruct (javascript_function_chunks ms c l r lang k) as [funcs k']
    end.
    simpl in *. split.
    + by rewrite filter_app, filter_none.
    + intros Hnone. rewrite length_app, Hlen, Hnone. done.
  - intros Hsize chunks size. subst chunks.
    unfold parse_generic_file. rewrite Hread.
    destruct (max_chunk_size <=? 0)%Z eqn:Hle; [apply Z.leb_le in Hle; lia|].
    match goal with
    | |- context [generic_window_chunks ?st ?p ?r ?lang ?c ?sz k] =>
        pose proof (generic_window_chunks_spec st p r lang c sz k) as Hspec;
        destruct (generic_window_chunks st p r lang c sz k) as [chunks k']
    end.
    simpl in *. destruct Hspec as (Hlen & Hmod & _).
    assert (0 < size) as Hpos by (unfold size; lia).
    rewrite py_range_length in Hlen by done. fold size in Hlen.
    split; [done|]. split; [done|].
    rewrite <- length_zero_iff_nil, Hlen. split.
    + intros Hzero. destruct content as [|c r]; [done|]. exfalso.
      simpl in Hzero.
      assert (size <= S (String.length r) + size - 1) as Hge by lia.
      apply (Nat.Div0.div_le_mono _ _ size) in Hge.
      rewrite Nat.div_same in Hge by lia. simpl in Hge. lia.
    + intros ->. simpl. apply Nat.div_small. lia.
Qed.

(** *** Ids in sequence, file after file *)

Lemma python_def_chunks_sequential nodes lines rel k :
  sequential_ids k (python_def_chunks nodes lines rel k).
Proof.
  revert k. induction nodes as [|n nodes IH]; intros k; [apply sequential_ids_nil|].
  destruct n as [cs|d cs|d cs|d cs|cs]; simpl; try apply IH.
  - specialize (IH (S k)).
    destruct (python_def_chunks nodes lines rel (S k)) as [rest k'].
    by apply sequential_ids_cons.
  - specialize (IH (S k)).
    destruct (python_def_chunks nodes lines rel (S k)) as [rest k'].
    by apply sequential_ids_cons.
Qed.

Lemma javascript_function_chunks_sequential matches content lines rel language k :
  sequential_ids k (javascript_function_chunks matches content lines rel language k).
Proof.
  revert k. induction matches as [|m matches IH]; intros k; [apply sequential_ids_nil|].
  simpl. specialize (IH (S k)).
  destruct (javascript_function_chunks matches content lines rel language (S k)).
  by apply sequential_ids_cons.
Qed.

Lemma generic_window_chunks_sequential starts path rel language content size k :
  sequential_ids k (generic_window_chunks starts path rel language content size k).
Proof.
  revert k. induction starts as [|i starts IH]; intros k; [apply sequential_ids_nil|].
  simpl. specialize (IH (S k)).
  destruct (generic_window_chunks starts path rel language content size (S k)).
  by apply sequential_ids_cons.
Qed.

Lemma parse_file_sequential path base k : sequential_ids k (parse_file path base k).
Proof.
  unfold parse_file. repeat case_match.
  - unfold parse_python_file.
    destruct (read_text path) as [content|e]; [|apply sequential_ids_nil].
    destruct (ast_parse content) as [tree|e]; [|apply sequential_ids_nil].
    cbn [_create_chunk].
    pose proof (python_def_chunks_sequential (walk tree) (splitlines content)
                  (relpath path base) (S k)) as Hseq.
    destruct (python_def_chunks (walk tree) (splitlines content)
                (relpath path base) (S k)) as [defs k'].
    by apply sequential_ids_cons.
  - unfold parse_javascript_file.
    destruct (read_text path) as [content|e]; [|apply sequential_ids_nil].
    match goal with
    | |- context [javascript_function_chunks ?ms ?c ?l ?r ?lang k] =>
        pose proof (javascript_function_chunks_sequential ms c l r lang k) as Hseq;
        destruct (javascript_function_chunks ms c l r lang k) as [funcs k1]
    end.
    cbn [_create_chunk].
    eapply sequential_ids_app; [exact Hseq|].
    apply sequential_ids_cons; [done | apply sequential_ids_nil].
  - unfold parse_generic_file.
    destruct (read_text path) as [content|e]; [|apply sequential_ids_nil].
    destruct (max_chunk_size <=? 0)%Z; [apply sequential_ids_nil|].
    apply generic_window_chunks_sequential.
Qed.

Lemma parse_codebase_app a b base k :
  parse_codebase (a ++ b) base k =
    let '(ca, k1) := parse_codebase a base k in
    let '(cb, k2) := parse_codebase b base k1 in
    (ca ++ cb, k2).
Proof.
  revert k. induction a as [|p a IH]; intros k; simpl.
  - by destruct (parse_codebase b base k).
  - destruct (parse_file p base k) as [cp k0]. rewrite IH.
    destruct (parse_codebase a base k0) as [ca k1].
    destruct (parse_codebase b base k1) as [cb k2]. by rewrite app_assoc.
Qed.

(** X5. Within one run of [parse_codebase], whatever the files and the
    strategies they go to, the chunks carry the ids [chunk_] followed by the
    six-digit numbers after the counter value, in sequence and in the order
    of the chunks; the counter advances by the number of chunks; and no two
    chunks share an id. *)
Theorem parse_codebase_ids file_paths base k :
  let '(chunks, k') := parse_codebase file_paths base k in
  k' = k + length chunks
  /\ chunk_id <$> chunks = chunk_ids_from k (length chunks)
  /\ NoDup (chunk_id <$> chunks)
  /\ (forall i c, chunks !! i = Some c ->
        exists digits, chunk_id c = "chunk_" +:+ digits
                       /\ digits_value digits = Some (k + i + 1)).
Proof.
  assert (sequential_ids k (parse_codebase file_paths base k)) as Hseq.
  { revert k. induction file_paths as [|p ps IH]; intros k; [apply sequential_ids_nil|].
    simpl. pose proof (parse_file_sequential p base k) as Hp.
    destruct (parse_file p base k) as [cp k0]. specialize (IH k0).
    destruct (parse_codebase ps base k0) as [cs k1].
    by eapply sequential_ids_app. }
  destruct (parse_codebase file_paths base k) as [chunks k'].
  destruct Hseq as [Hk Hids]. simpl in *.
  split; [done|]. split; [done|]. split.
  - rewrite Hids. apply chunk_ids_from_NoDup.
  - intros i c Hi. exists (fmt_06d (S (k + i))).
    split; [|rewrite digits_value_fmt_06d; f_equal; lia].
    assert ((chunk_id <$> chunks) !! i = Some (chunk_id c)) as Hc
      by (by rewrite list_lookup_fmap, Hi).
    rewrite Hids in Hc. unfold chunk_ids_from in Hc.
    rewrite list_lookup_fmap in Hc.
    destruct (seq 0 (length chunks) !! i) as [j|] eqn:Hj; [|done].
    apply lookup_seq in Hj as [-> _]. simpl in Hc. by simplify_eq.
Qed.

(** X6. A file that cannot be read contributes no chunk and does not abort
    or disturb the run: the chunks and the ids of the other files are what
    they are without it in the list. The same holds for a Python file that
    does not parse. *)
Theorem parse_codebase_skips before path after base k :
  is_returns (read_text path) = false
  \/ (PyStr.lower (path_suffix path) = ".py"
      /\ exists content, read_text path = Returns content
                         /\ is_returns (ast_parse content) = false) ->
  parse_file path base k = ([], k)
  /\ parse_codebase (before ++ path :: after) base k
     = parse_codebase (before ++ after) base k.
Proof.
  intros Hbad.
  assert (forall k0, parse_file path base k0 = ([], k0)) as Hfile.
  { intros k0. unfold parse_file.
    destruct Hbad as [Hread | (Hpy & content & Hread & Hparse)].
    - unfold parse_python_file, parse_javascript_file, parse_generic_file.
      destruct (read_text path); [done|]. by repeat case_match.
    - rewrite Hpy. simpl. unfold parse_python_file. rewrite Hread.
      by destruct (ast_parse content). }
  split; [apply Hfile|].
  rewrite !parse_codebase_app.
  destruct (parse_codebase before base k) as [cb k1]. simpl.
  rewrite Hfile. by destruct (parse_codebase after base k1).
Qed.

(** *** The windows of the fixed-size strategy *)

Lemma generic_window_chunks_codes starts path rel language content size k :
  let chunks := (generic_window_chunks starts path rel language content size k).1 in
  chunk_code <$> chunks = (fun i => str_slice i (i + size) content) <$> starts
  /\ chunk_name <$> chunks
     = (fun i => path_stem path +:+ "_part_" +:+ str_of_nat (i / size + 1)) <$> starts.
Proof.
  revert k. induction starts as [|i starts IH]; intros k; [done|].
  cbn [generic_window_chunks generic_window_chunk _create_chunk].
  specialize (IH (S k)). cbn zeta in IH.
  destruct (generic_window_chunks starts path rel language content size (S k))
    as [rest k'].
  cbn [fst] in *. destruct IH as [Hcodes Hnames].
  rewrite !fmap_cons, Hcodes, Hnames. done.
Qed.

(** X7. The fixed-size strategy loses and repeats nothing: with a positive
    chunk size, the codes of the chunks of a file, put end to end, are the
    content of the file; the [j]-th chunk (from zero) is the window of
    [max_chunk_size] characters starting at [j * max_chunk_size], has between
    one and [max_chunk_size] characters, and is named with the suffix
    [_part_] and the number [j + 1]. *)
Theorem parse_generic_file_windows path base k content :
  read_text path = Returns content ->
  (0 < max_chunk_size)%Z ->
  let size := Z.to_nat max_chunk_size in
  let chunks := (parse_generic_file path base k).1 in
  join "" (chunk_code <$> chunks) = content
  /\ forall j c, chunks !! j = Some c ->
       chunk_code c = str_slice (j * size) (j * size + size) content
       /\ 1 <= String.length (chunk_code c) <= size
       /\ chunk_name c = path_stem path +:+ "_part_" +:+ str_of_nat (j + 1).
Proof.
  intros Hread Hsize size chunks. subst chunks.
  unfold parse_generic_file. rewrite Hread.
  destruct (max_chunk_size <=? 0)%Z eqn:Hle; [apply Z.leb_le in Hle; lia|].
  fold size. assert (0 < size) as Hpos by (unfold size; lia).
  match goal with
  | |- context [generic_window_chunks ?st ?p ?r ?lang ?c ?sz k] =>
      pose proof (generic_window_chunks_codes st p r lang c sz k) as Hspec;
      destruct (generic_window_chunks st p r lang c sz k) as [chunks k']
  end.
  cbn [fst] in *. destruct Hspec as [Hcodes Hnames]. split.
  - rewrite Hcodes. unfold py_range. rewrite join_range_from by lia.
    done.
  - intros j c Hj.
    assert ((chunk_code <$> chunks) !! j = Some (chunk_code c)) as Hc
      by (by rewrite list_lookup_fmap, Hj).
    assert ((chunk_name <$> chunks) !! j = Some (chunk_name c)) as Hn
      by (by rewrite list_lookup_fmap, Hj).
    rewrite Hcodes, list_lookup_fmap in Hc. rewrite Hnames, list_lookup_fmap in Hn.
    destruct (py_range 0 (String.length content) size !! j) as [i|] eqn:Hi; [|done].
    apply range_from_lookup in Hi as [Hi Hlt]. rewrite Nat.add_0_l in Hi. subst i.
    cbn [fmap option_fmap option_map] in Hc, Hn.
    injection Hc as Hc. injection Hn as Hn. rewrite <- Hc, <- Hn.
    split; [done|]. split.
    + rewrite str_slice_take_drop, str_take_length, str_drop_length. lia.
    + by rewrite Nat.div_mul by lia.
Qed.

(** X8. When the text after the opening brace of a function is balanced up
    to a closing brace, the scan of [parse_javascript_file] stops just after
    that brace: the chunk ends on the line of the brace that closes the
    function, whatever follows it. *)
Theorem javascript_function_chunk_end content lines rel language m k before body rest :
  content = before +:+ body +:+ String "}" rest ->
  m_end m = String.length before ->
  balanced body ->
  scan_braces (str_drop (m_end m) content) 1 (m_end m)
  = String.length before + String.length body + 1
  /\ end_line (javascript_function_chunk content lines rel language m k).1
     = Z.of_nat (count_nl (before +:+ body) + 1).
Proof.
  intros -> Hend Hbal.
  assert (scan_braces (str_drop (m_end m) (before +:+ body +:+ String "}" rest)) 1 (m_end m)
          = String.length before + String.length body + 1) as Hscan.
  { rewrite Hend, str_drop_app, scan_braces_balanced by done.
    cbn [scan_braces]. replace (Ascii.eqb "}" "{") with false by reflexivity.
    rewrite Ascii.eqb_refl, scan_braces_zero. lia. }
  split; [exact Hscan|].
  unfold javascript_function_chunk. cbn [_create_chunk fst end_line].
  rewrite Hscan. do 2 f_equal.
  replace (before +:+ body +:+ String "}" rest)
    with ((before +:+ body +:+ "}") +:+ rest)
    by (by rewrite !str_app_assoc, str_app_cons, str_app_empty_l).
  replace (String.length before + String.length body + 1)
    with (String.length (before +:+ body +:+ "}"))
    by (rewrite !str_app_length; simpl; lia).
  rewrite str_take_app, <- str_app_assoc, count_nl_app. simpl. lia.
Qed.

End Service.

#[local] Existing Instance Samples.sample_files.

(** C3: the sentence of the specification does not hold on this file. The
    class [Shape] is the only definition at the top level of the module, yet
    its method [area] has a chunk of its own, so there are two chunks besides
    the module chunk. *)
Lemma parse_python_file_chunks_method :
  ast_parse Samples.shapes_source = Returns Samples.shapes_tree
  /\ top_level_defs Samples.shapes_tree = [("class", Samples.shape_def)]
  /\ chunk_view <$> (parse_python_file "shapes.py" "" 0).1
     = [("module", "shapes", 1%Z, 3%Z);
        ("class", "Shape", 1%Z, 3%Z);
        ("function", "area", 2%Z, 3%Z)]
  /\ length (parse_python_file "shapes.py" "" 0).1
     <> 1 + length (top_level_defs Samples.shapes_tree).
Proof. vm_compute. repeat split; try reflexivity. discriminate. Qed.

Lemma parse_python_file_chunks_witness :
  read_text "shapes.py" = Returns Samples.shapes_source
  /\ ast_parse Samples.shapes_source = Returns Samples.shapes_tree
  /\ exists module_chunk defs,
       (parse_python_file "shapes.py" "" 0).1 = module_chunk :: defs
       /\ chunk_view module_chunk =
            ("module", path_stem "shapes.py", 1%Z,
             Z.of_nat (length (splitlines Samples.shapes_source)))
       /\ Forall2 chunk_of_def defs (omap def_chunk_view (walk Samples.shapes_tree))
       /\ walk Samples.shapes_tree ≡ₚ all_nodes Samples.shapes_tree.
Proof.
  split; [reflexivity|]. split; [reflexivity|].
  apply (parse_python_file_chunks "shapes.py" "" 0); reflexivity.
Defined.

(** C5: the sentence of the specification does not hold on this file. An
    empty file handled by the fixed-size strategy yields no chunk at all. *)
Lemma parse_generic_file_empty :
  read_text "empty.txt" = Returns ""
  /\ (parse_file "empty.txt" "" 0).1 = []
  /\ length (filter is_module_chunk (parse_file "empty.txt" "" 0).1) <> 1.
Proof. vm_compute. repeat split; try reflexivity. discriminate. Qed.

Lemma module_chunk_count_witness :
  read_text "notes.txt" = Returns Samples.notes_source
  /\ (0 < max_chunk_size)%Z
  /\ length (parse_generic_file "notes.txt" "" 0).1 = 3.
Proof.
  split; [reflexivity|]. split; [reflexivity|].
  destruct (module_chunk_count "notes.txt" "" 0 Samples.notes_source)
    as (_ & _ & Hgeneric); [reflexivity|].
  destruct Hgeneric as (_ & Hlen & _); [reflexivity|].
  rewrite Hlen. reflexivity.
Defined.

(** C9, the code run on the failing input: the module chunk of an empty
    Python file, and of an empty JavaScript file, spans line 1 to line 0. *)
Theorem empty_file_module_chunk_span :
  chunk_view <$> (parse_python_file "empty.py" "" 0).1 = [("module", "empty", 1%Z, 0%Z)]
  /\ chunk_view <$> (parse_javascript_file "empty.js" "" 0).1
     = [("module", "empty", 1%Z, 0%Z)]
  /\ ¬ Forall span_ok (parse_python_file "empty.py" "" 0).1.
Proof.
  split; [reflexivity|]. split; [reflexivity|].
  intros Hall. apply Forall_inv in Hall. unfold span_ok in Hall.
  vm_compute in Hall. destruct Hall as [_ Hle]. by apply Hle.
Qed.

Lemma balanced_plain s :
  has_char "{" s = false -> has_char "}" s = false -> balanced s.
Proof.
  induction s as [|c r IH]; [constructor|]. simpl.
  intros Hopen Hclose.
  apply orb_false_iff in Hopen as [Hc1 Hr1].
  apply orb_false_iff in Hclose as [Hc2 Hr2].
  apply balanced_char; [by apply Ascii.eqb_neq | by apply Ascii.eqb_neq | by apply IH].
Qed.

Lemma balanced_app s t : balanced s -> balanced t -> balanced (s +:+ t).
Proof.
  induction 1 as [|c s Hopen Hclose Hs IH|s1 s2 Hs1 IH1 Hs2 IH2]; intros Ht.
  - by rewrite str_app_empty_l.
  - rewrite str_app_cons. apply balanced_char; auto.
  - rewrite str_app_cons, str_app_assoc, str_app_cons.
    apply balanced_block; auto.
Qed.

(** The unreadable file in the middle of the list changes nothing. *)
Lemma parse_codebase_skips_witness :
  is_returns (read_text "missing.py") = false
  /\ parse_file "missing.py" "" 0 = ([], 0)
  /\ parse_codebase (["shapes.py"] ++ "missing.py" :: ["notes.txt"]) "" 0
     = parse_codebase (["shapes.py"] ++ ["notes.txt"]) "" 0.
Proof.
  split; [reflexivity|].
  apply (parse_codebase_skips ["shapes.py"] "missing.py" ["notes.txt"] "" 0).
  left. reflexivity.
Defined.

(** The 2500 characters of the text file come back from its three chunks. *)
Lemma parse_generic_file_windows_witness :
  read_text "notes.txt" = Returns Samples.notes_source
  /\ (0 < max_chunk_size)%Z
  /\ join "" (chunk_code <$> (parse_generic_file "notes.txt" "" 0).1)
     = Samples.notes_source.
Proof.
  split; [reflexivity|]. split; [reflexivity|].
  destruct (parse_generic_file_windows "notes.txt" "" 0 Samples.notes_source)
    as [Hjoin _]; [reflexivity..|exact Hjoin].
Defined.

(** The function [f] ends on its second line, where its closing brace is. *)
Lemma javascript_function_chunk_end_witness :
  let m := ReMatch "f" 0 14 in
  m_end m = String.length Samples.widget_before
  /\ balanced Samples.widget_body
  /\ end_line (javascript_function_chunk Samples.widget_source
                 (splitlines Samples.widget_source) "widget.js" "javascript" m 0).1
     = 2%Z.
Proof.
  intros m.
  assert (balanced Samples.widget_body) as Hbal.
  { unfold Samples.widget_body. apply balanced_app.
    - by apply balanced_plain.
    - apply balanced_block; by apply balanced_plain. }
  split; [reflexivity|]. split; [exact Hbal|].
  destruct (javascript_function_chunk_end Samples.widget_source
              (splitlines Samples.widget_source) "widget.js" "javascript" m 0
              Samples.widget_before Samples.widget_body Samples.widget_rest)
    as [_ Hend]; [reflexivity | reflexivity | exact Hbal |].
  rewrite Hend. reflexivity.
Defined.

End ParserFacts.

(** ** The embedding gateway *)

Module EmbeddingFacts.
Import PyStr PyStrFacts Parser Embedding.

(** The context text the code builds is the text of the specification. *)
Lemma get_context_text_spec c : get_context_text c = context_text_spec c.
Proof.
  unfold get_context_text, context_text_spec.
  destruct (chunk_docstring c) as [|d ds] eqn:Hdoc; simpl.
  - by rewrite !str_app_assoc.
  - by rewrite !str_app_assoc.
Qed.

Section Service.
Context `{EmbeddingModel}.

(** C6. The texts handed to the embedding model are, chunk by chunk, the
    file path line, the language line, the line with the capitalised kind and
    the name, the documentation line when the docstring is not empty, and the
    code, joined by newlines in this order and cut at 2000 characters: each
    is the first [min 2000 length] characters of the full text, whatever its
    length, and [generate_embeddings] raises only when the model does. *)
Theorem embedding_input_text chunks :
  embedding_texts chunks = embedding_text_spec <$> chunks
  /\ Forall (fun c =>
       String.length (embedding_text_spec c)
         = Nat.min 2000 (String.length (context_text_spec c))
       /\ embedding_text_spec c +:+ str_drop 2000 (context_text_spec c)
          = context_text_spec c
       /\ (String.length (context_text_spec c) <= 2000 ->
           embedding_text_spec c = context_text_spec c)) chunks
  /\ generate_embeddings chunks =
       match chunks with
       | [] => Returns []
       | _ =>
           match encode (embedding_text_spec <$> chunks) with
           | Returns embeddings => Returns embeddings
           | Raises e =>
               Raises (Exn EmbeddingException
                         ("Failed to generate embeddings: " +:+ exn_str e))
           end
       end.
Proof.
  assert (embedding_texts chunks = embedding_text_spec <$> chunks) as Htexts.
  { unfold embedding_texts, embedding_text_spec.
    rewrite <- list_fmap_compose. apply list_fmap_ext. intros i c _. simpl.
    by rewrite get_context_text_spec. }
  split; [exact Htexts|]. split.
  - apply Forall_forall. intros c _. unfold embedding_text_spec.
    split; [apply str_take_length|].
    split; [apply str_take_drop | apply str_take_all].
  - unfold generate_embeddings. rewrite Htexts. by destruct chunks.
Qed.

End Service.

End EmbeddingFacts.

(** ** The vector index *)

Module VectorFacts.
Import PyStr PyStrFacts Parser Vector.


Section Service.
Context `{Chroma}.



(** *** Creating a collection and inserting into it *)

(** [create_collection] leaves a fresh empty collection, or none when the
    database refuses the name; what was stored under the name is gone. *)
Lemma create_collection_spec session_id (st : store) :
  let name := collection_name session_id in
  create_collection session_id st =
    if valid_name name then (Returns tt, <[name := []]> (delete name st))
    else (Raises (Exn VectorDBException
                    ("Failed to create collection: " +:+
                     ("Invalid collection name: " +:+ name))), delete name st).
Proof.
  intros name. unfold create_collection, client_delete_collection. fold name.
  assert (forall st1 : store, st1 = delete name st ->
            match client_create_collection name st1 with
            | (Returns _, st2) => (Returns tt, st2)
            | (Raises e, st2) =>
                (Raises (Exn VectorDBException
                           ("Failed to create collection: " +:+ exn_str e)), st2)
            end
            = if valid_name name then (Returns tt, <[name := []]> (delete name st))
              else (Raises (Exn VectorDBException
                              ("Failed to create collection: " +:+
                               ("Invalid collection name: " +:+ name))), delete name st))
    as Hcreate.
  { intros st1 ->. unfold client_create_collection. rewrite lookup_delete_eq.
    by destruct (valid_name name). }
  destruct (st !! name) eqn:Hlook; apply Hcreate; [done|].
  by rewrite delete_id.
Qed.

Lemma zip_entries_ids ids documents metadatas (embeddings : list NdArray) :
  length documents = length ids ->
  length metadatas = length ids ->
  length embeddings = length ids ->
  entry_id <$> zip_entries ids documents metadatas embeddings = ids.
Proof.
  revert documents metadatas embeddings.
  induction ids as [|i ids IH]; intros [|d ds] [|m ms] [|e es]; simpl; try done.
  intros [= Hd] [= Hm] [= He]. f_equal. by apply IH.
Qed.

(** The batches of a list, taken at the starts of the range, make up the
    list. *)
Lemma concat_range_from {A} (l : list A) b fuel start :
  0 < b -> length l - start <= fuel ->
  concat ((fun i => take b (drop i l)) <$> range_from fuel start (length l) b)
  = drop start l.
Proof.
  intros Hb. revert start. induction fuel as [|fuel IH]; intros start Hfuel; simpl.
  - symmetry. apply drop_ge. lia.
  - destruct (start <? length l)%nat eqn:Hlt.
    + simpl. rewrite IH by lia.
      by rewrite <- drop_drop, take_drop.
    + apply Nat.ltb_ge in Hlt. symmetry. by apply drop_ge.
Qed.

Lemma concat_batches {A} (l : list A) :
  concat ((fun i => batch_at i l) <$> py_range 0 (length l) batch_size) = l.
Proof.
  unfold batch_at, py_range. rewrite concat_range_from; [done| |lia].
  unfold batch_size. lia.
Qed.

(** The insertion loop only ever appends to the collection: it ends with the
    batches of all the starts appended, or stops at a batch the database
    rejects with the batches before it appended. *)
Lemma add_batches_spec starts name ids documents metadatas embeddings
    (st : store) entries :
  st !! name = Some entries ->
  match add_batches starts name ids documents metadatas embeddings st with
  | (Returns _, st') =>
      exists added,
        st' = <[name := entries ++ added]> st
        /\ entry_id <$> added = concat ((fun i => batch_at i ids) <$> starts)
  | (Raises _, st') =>
      exists done_ rest added,
        starts = done_ ++ rest /\ rest <> []
        /\ st' = <[name := entries ++ added]> st
        /\ entry_id <$> added = concat ((fun i => batch_at i ids) <$> done_)
  end.
Proof.
  revert st entries. induction starts as [|i starts IH]; intros st entries Hlook; simpl.
  - exists []. rewrite app_nil_r. split; [|done]. by rewrite insert_id.
  - unfold collection_add. rewrite Hlook.
    case_bool_decide as Hlen.
    + destruct (add_accepts entries _) eqn:Hacc.
      * set (batch := zip_entries _ _ _ _).
        specialize (IH (<[name := entries ++ batch]> st) (entries ++ batch)
                      (lookup_insert_eq _ _ _)).
        destruct (add_batches starts name ids documents metadatas embeddings
                    (<[name := entries ++ batch]> st)) as [[u|e] st'].
        -- destruct IH as (added & -> & Hids). exists (batch ++ added).
           rewrite insert_insert_eq, app_assoc. split; [done|].
           rewrite fmap_app, Hids. f_equal.
           unfold batch. destruct Hlen as (Hd & Hm & He). by apply zip_entries_ids.
        -- destruct IH as (done_ & rest & added & -> & Hrest & -> & Hids).
           exists (i :: done_), rest, (batch ++ added).
           rewrite insert_insert_eq, app_assoc. repeat split; try done.
           rewrite fmap_app, Hids. simpl. f_equal.
           unfold batch. destruct Hlen as (Hd & Hm & He). by apply zip_entries_ids.
      * exists [], (i :: starts), []. rewrite app_nil_r.
        repeat split; try done. by rewrite insert_id.
    + exists [], (i :: starts), []. rewrite app_nil_r.
      repeat split; try done. by rewrite insert_id.
Qed.

(** [insert_embeddings] on a store that has the collection: all the chunks
    are appended, or a [VectorDBException] is raised and the collection
    stays, with the batches that were accepted before. *)
Lemma insert_embeddings_spec session_id chunks embeddings (st : store) entries :
  st !! collection_name session_id = Some entries ->
  match insert_embeddings session_id chunks embeddings st with
  | (Returns _, st') =>
      exists added,
        st' = <[collection_name session_id := entries ++ added]> st
        /\ entry_id <$> added = chunk_id <$> chunks
  | (Raises e, st') =>
      exn_cls e = VectorDBException
      /\ exists added,
           st' = <[collection_name session_id := entries ++ added]> st
           /\ entry_id <$> added `prefix_of` chunk_id <$> chunks
           /\ (length chunks <= batch_size -> added = [])
  end.
Proof.
  intros Hlook. unfold insert_embeddings. rewrite Hlook.
  set (ids := map chunk_id chunks).
  pose proof (add_batches_spec (py_range 0 (length ids) batch_size)
                (collection_name session_id) ids (map chunk_code chunks)
                (map metadata_of chunks) embeddings st entries Hlook) as Hspec.
  destruct (add_batches _ _ _ _ _ _ st) as [[u|e] st'].
  - destruct Hspec as (added & -> & Hids). exists added. split; [done|].
    by rewrite Hids, concat_batches.
  - destruct Hspec as (done_ & rest & added & Hstarts & Hrest & -> & Hids).
    split; [done|]. exists added. split; [done|].
    pose proof (concat_batches ids) as Hall.
    rewrite Hstarts, fmap_app, concat_app, <- Hids in Hall.
    split; [by eexists|].
    intros Hsmall.
    assert (length (py_range 0 (length ids) batch_size) <= 1) as Hone.
    { rewrite py_range_length by (unfold batch_size; lia).
      unfold ids. rewrite length_map.
      transitivity ((batch_size + batch_size - 1) / batch_size).
      - apply Nat.Div0.div_le_mono. lia.
      - unfold batch_size.
        replace (1000 + 1000 - 1) with (999 + 1 * 1000) by lia.
        rewrite Nat.div_add, Nat.div_small by lia. lia. }
    rewrite Hstarts, length_app in Hone.
    destruct rest as [|r rest]; [done|]. simpl in Hone.
    destruct done_ as [|d done_]; [|simpl in Hone; lia].
    simpl in Hids. by apply fmap_nil_inv in Hids.
Qed.

(** *** What is stored *)





(** X10. [create_collection] always starts the session afresh: when the
    database accepts the name, the session's collection exists and is empty
    afterwards, whatever it held before, and no other collection has
    changed; when it does not, a [VectorDBException] is raised and the session
    has no collection. *)
Theorem create_collection_fresh session_id (st : store) :
  let name := collection_name session_id in
  match create_collection session_id st with
  | (Returns _, st') =>
      valid_name name = true
      /\ st' !! name = Some []
      /\ get_collection_count session_id st' = 0
      /\ forall other, other <> name -> st' !! other = st !! other
  | (Raises e, st') =>
      valid_name name = false
      /\ exn_cls e = VectorDBException
      /\ st' !! name = None
      /\ forall other, other <> name -> st' !! other = st !! other
  end.
Proof.
  intros name. pose proof (create_collection_spec session_id st) as Hspec.
  cbn zeta in Hspec. fold name in Hspec. rewrite Hspec.
  destruct (valid_name name).
  - split; [done|]. unfold get_collection_count. fold name.
    rewrite lookup_insert_eq. repeat split; try done.
    intros other Hother. by rewrite lookup_insert_ne, lookup_delete_ne.
  - split; [done|]. split; [done|]. rewrite lookup_delete_eq. split; [done|].
    intros other Hother. by rewrite lookup_delete_ne.
Qed.

(** After [delete_collection] the session has no collection. *)
Lemma delete_collection_absent session_id (st : store) :
  delete_collection session_id st !! collection_name session_id = None.
Proof.
  unfold delete_collection, client_delete_collection.
  destruct (st !! collection_name session_id) eqn:Hlook; cbn [snd]; [|done].
  apply lookup_delete_eq.
Qed.

(** X11. [delete_collection] never fails and can be repeated: afterwards the
    session has no collection, deleting again changes nothing, no other
    collection has changed, the count reads 0, and a search in the session
    raises a [VectorDBException] instead of returning an empty list. *)
Theorem delete_collection_idempotent session_id (st : store) q k :
  let st' := delete_collection session_id st in
  st' !! collection_name session_id = None
  /\ delete_collection session_id st' = st'
  /\ (forall other, other <> collection_name session_id -> st' !! other = st !! other)
  /\ get_collection_count session_id st' = 0
  /\ exists e, search_similar session_id q k st' = Raises e
               /\ exn_cls e = VectorDBException.
Proof.
  intros st'.
  assert (st' = delete (collection_name session_id) st) as Hdel.
  { unfold st', delete_collection, client_delete_collection.
    destruct (st !! collection_name session_id) eqn:Hlook; [done|].
    simpl. by rewrite delete_id. }
  assert (st' !! collection_name session_id = None) as Hnone
    by (rewrite Hdel; apply lookup_delete_eq).
  split; [done|]. split.
  - unfold delete_collection, client_delete_collection. by rewrite Hnone.
  - split; [intros other Hother; by rewrite Hdel, lookup_delete_ne|].
    unfold get_collection_count, search_similar. rewrite Hnone.
    split; [done|]. by eexists.
Qed.

End Service.

#[local] Existing Instance Samples.sample_numbers.
#[local] Existing Instance Samples.sample_chroma.



End VectorFacts.

(** ** The orchestrator *)

Module RAGFacts.
Import PyStr PyStrFacts Parser Embedding Vector VectorFacts RAG.

Section Service.
Context `{EmbeddingModel} `{!Chroma}.

Lemma generate_embeddings_raises chunks e :
  generate_embeddings chunks = Raises e -> exn_cls e = EmbeddingException.
Proof.
  unfold generate_embeddings. destruct chunks; [done|].
  destruct (encode _); [done|]. by intros [= <-].
Qed.

(** C4, as the code has it. [index_codebase] embeds the chunks, then creates
    the collection, then inserts. When it returns, the session's collection
    holds one entry per chunk, in order. When it raises, either the embedding
    failed and the store is untouched (no collection was created), or the
    creation failed and the store has no collection of that name, or the
    insertion failed and the collection created just before is still there,
    with the batches accepted before the failing one (none when all the
    chunks fit in one batch). *)
Theorem index_codebase_spec session_id chunks (st : store) :
  let name := collection_name session_id in
  match index_codebase session_id chunks st with
  | (Returns r, st') =>
      chunks_indexed r = length chunks
      /\ exists embeddings entries,
           generate_embeddings chunks = Returns embeddings
           /\ embeddings_generated r = length embeddings
           /\ st' = <[name := entries]> st
           /\ entry_id <$> entries = chunk_id <$> chunks
  | (Raises e, st') =>
      (exn_cls e = EmbeddingException
       /\ generate_embeddings chunks = Raises e
       /\ st' = st)
      \/ (exn_cls e = VectorDBException
          /\ valid_name name = false
          /\ st' = delete name st)
      \/ (exn_cls e = VectorDBException
          /\ exists entries,
               st' = <[name := entries]> st
               /\ entry_id <$> entries `prefix_of` chunk_id <$> chunks
               /\ (length chunks <= batch_size -> entries = []))
  end.
Proof.
  intros name. unfold index_codebase.
  destruct (generate_embeddings chunks) as [embeddings|e] eqn:Hemb.
  - pose proof (create_collection_spec session_id st) as Hcreate.
    simpl in Hcreate. fold name in Hcreate. rewrite Hcreate. clear Hcreate.
    destruct (valid_name name) eqn:Hvalid.
    + pose proof (insert_embeddings_spec session_id chunks embeddings
                    (<[name := []]> (delete name st)) []
                    (lookup_insert_eq _ _ _)) as Hins.
      fold name in Hins.
      destruct (insert_embeddings session_id chunks embeddings
                  (<[name := []]> (delete name st))) as [[u|e] st'].
      * destruct Hins as (added & -> & Hids). split; [done|].
        exists embeddings, added. simpl.
        by rewrite insert_insert_eq, insert_delete_eq.
      * destruct Hins as (Hcls & added & -> & Hpre & Hsmall).
        right. right. split; [done|]. exists added. simpl.
        by rewrite insert_insert_eq, insert_delete_eq.
    + right. left. by repeat split.
  - left. split; [by eapply generate_embeddings_raises|]. by split.
Qed.

End Service.

Section Query.
Context `{EmbeddingModel} `{!Chroma} `{!LLM.OpenRouter} `{!QuerySettings}.

Lemma generate_single_embedding_raises text e :
  generate_single_embedding text = Raises e -> exn_cls e = EmbeddingException.
Proof.
  unfold generate_single_embedding. destruct (encode_one _); [done|]. by intros [= <-].
Qed.

Lemma search_similar_raises session_id q k (st : store) e :
  search_similar session_id q k st = Raises e -> exn_cls e = VectorDBException.
Proof.
  unfold search_similar. repeat case_match; try done; by intros [= <-].
Qed.

(** X12. [process_query] stops at the first step that fails, and the class of
    the exception tells how far it got: an [EmbeddingException] or a
    [VectorDBException] means that no model was requested at all; an
    [LLMException] means that every model of the list was requested once.
    When it returns, the snippets are the retrieved chunks in order, the
    relevant files are their file paths without duplicates, and the answer
    and the model are those of [generate_explanation] on these chunks. *)
Theorem process_query_steps session_id question model (st : store) (net : LLM.net) :
  match process_query session_id question model st net with
  | (Raises e, net') =>
      (exn_cls e = EmbeddingException
       /\ generate_single_embedding question = Raises e /\ net' = net)
      \/ (exn_cls e = VectorDBException /\ net' = net)
      \/ (exn_cls e = LLMException
          /\ LLM.calls net' = LLM.calls net ++ LLM.models_to_try model
          /\ LLM.slept net' = LLM.slept net)
  | (Returns r, net') =>
      exists query_embedding similar_chunks llm_result,
        generate_single_embedding question = Returns query_embedding
        /\ search_similar session_id query_embedding max_chunks_per_query st
           = Returns similar_chunks
        /\ LLM.generate_explanation question similar_chunks model net
           = (Returns llm_result, net')
        /\ qa_answer r = LLM.answer llm_result
        /\ qa_model_used r = Some (LLM.model_used llm_result)
        /\ qa_code_snippets r = snippet_of <$> similar_chunks
        /\ qa_chunks_retrieved r = length (qa_code_snippets r)
        /\ (forall file, file ∈ qa_relevant_files r <->
              exists chunk, chunk ∈ similar_chunks
                            /\ meta_file_path (hit_metadata chunk) = file)
  end.
Proof.
  unfold process_query.
  destruct (generate_single_embedding question) as [q|e] eqn:Hemb.
  - destruct (search_similar session_id q max_chunks_per_query st)
      as [hits|e] eqn:Hsearch.
    + pose proof (LLMFacts.try_models_spec (LLM.models_to_try model)
                    (LLM.user_prompt question hits) None net) as Hllm.
      unfold LLM.generate_explanation.
      destruct (LLM.try_models _ _ None net) as [[llm|e] net'] eqn:Htry.
      * exists q, hits, llm. repeat split; try done.
        -- simpl. unfold _extract_code_snippets. by rewrite length_map.
        -- simpl. rewrite elem_of_list_to_set, list_elem_of_fmap.
           intros (chunk & -> & Hin). by exists chunk.
        -- simpl. rewrite elem_of_list_to_set, list_elem_of_fmap.
           intros (chunk & Hin & <-). by exists chunk.
      * destruct Hllm as (_ & -> & Hlast). right. right.
        split; [|done].
        destruct Hlast as [[_ ->] | (init & m & err & _ & _ & ->)]; done.
    + right. left. split; [by eapply search_similar_raises | done].
  - left. split; [by eapply generate_single_embedding_raises | done].
Qed.

(** X13. A question asked of a session that has no collection costs no model
    request: when the embedding of the question is there and the collection
    is not, [process_query] raises a [VectorDBException] and the endpoint has
    seen nothing. *)
Theorem process_query_without_collection session_id question model
    (st : store) (net : LLM.net) :
  is_returns (generate_single_embedding question) = true ->
  st !! collection_name session_id = None ->
  exists e, process_query session_id question model st net = (Raises e, net)
            /\ exn_cls e = VectorDBException.
Proof.
  intros Hemb Hnone. unfold process_query.
  destruct (generate_single_embedding question) as [q|e]; [|done].
  unfold search_similar. rewrite Hnone. by eexists.
Qed.

End Query.


#[local] Existing Instance Samples.sample_numbers.

(** C4: the scenario of the specification does not occur. When the embedding
    model fails, no collection has been created yet, and none is left behind;
    the failure of the embeddings does not come after the creation of the
    collection. *)
Lemma index_codebase_embedding_failure :
  let chunks := [Samples.sample_chunk 1 "authenticate"] in
  @index_codebase _ Samples.broken_model Samples.sample_chroma "s1" chunks ∅
  = (Raises (Exn EmbeddingException "Failed to generate embeddings: CUDA out of memory"), ∅)
  /\ (∅ : store) !! collection_name "s1" = None.
Proof. split; reflexivity. Qed.

(** When the first batch is rejected, the empty collection created just
    before stays in the store. *)
Example index_codebase_insert_failure :
  let chunks := [Samples.sample_chunk 1 "authenticate"] in
  @index_codebase _ Samples.sample_model Samples.full_chroma "s1" chunks ∅
  = (Raises (Exn VectorDBException
               "Failed to insert embeddings: Batch rejected by the collection"),
     {[ "session_s1" := [] ]}).
Proof. vm_compute. reflexivity. Qed.

(** The scenario of the specification: two chunks are indexed. *)
Example index_codebase_two_chunks :
  let chunks := [Samples.sample_chunk 1 "authenticate";
                 Samples.sample_chunk 2 "create_session"] in
  chunks_indexed <$>
    (match (@index_codebase _ Samples.sample_model Samples.sample_chroma "s1" chunks ∅).1 with
     | Returns r => Some r
     | Raises _ => None
     end) = Some 2.
Proof. vm_compute. reflexivity. Qed.

(** A question about a session that was never indexed. *)
Lemma process_query_without_collection_witness :
  is_returns (@generate_single_embedding _ Samples.sample_model "How does it work?") = true
  /\ (∅ : store) !! collection_name "s1" = None
  /\ exists e,
       @process_query _ Samples.sample_model Samples.sample_chroma
         Samples.flaky_router Samples.sample_query_settings
         "s1" "How does it work?" None ∅ (LLM.Net [] [])
       = (Raises e, LLM.Net [] [])
       /\ exn_cls e = VectorDBException.
Proof.
  split; [reflexivity|]. split; [reflexivity|].
  apply (@process_query_without_collection _ Samples.sample_model Samples.sample_chroma
           Samples.flaky_router Samples.sample_query_settings);
    reflexivity.
Defined.

(** A question about the indexed sample: the default model times out, the
    first fallback answers, and both retrieved chunks come from one file. *)
Example process_query_sample :
  match (@process_query _ Samples.sample_model Samples.sample_chroma
           Samples.flaky_router Samples.sample_query_settings
           "s1" "How does it work?" None Samples.sample_store (LLM.Net [] [])).1 with
  | Returns r =>
      qa_model_used r = Some "google/gemini-pro"
      /\ qa_chunks_retrieved r = 3
      /\ qa_relevant_files r = {[ "auth.py" ]}
  | Raises _ => False
  end.
Proof. vm_compute. repeat split. Qed.

End RAGFacts.

(** ** The session store *)

Module SessionFacts.
Import Session.

Section Service.
Context `{SessionEnv}.

(** C7. With a positive configured lifetime: on a session that exists,
    [update_session] stores the dict with the given fields merged in (a given
    field replaces the stored one, the others stay) and [last_activity] set
    to the current time, whatever the given fields are, and the key's time to
    live is again the configured lifetime; on a session that is not there, it
    raises [SessionNotFoundException] and the store is unchanged. *)
Theorem update_session_spec now session_id updates (st : redis) :
  (0 < session_ttl)%Z ->
  (forall d, get_session now session_id st = Returns (LDict d) ->
     let merged := <["last_activity" := JStr (isoformat now)]> (updates ∪ d) in
     let st' := <[session_key session_id :=
                   {| value := json_dumps merged;
                      expires_at := (now + session_ttl)%Z |}]> st in
     update_session now session_id updates st = (Returns tt, st')
     /\ redis_get now (session_key session_id) st' = Some (json_dumps merged)
     /\ redis_ttl now (session_key session_id) st' = Some session_ttl
     /\ merged !! "last_activity" = Some (JStr (isoformat now))
     /\ (forall k, k <> "last_activity" ->
           merged !! k = match updates !! k with
                         | Some v => Some v
                         | None => d !! k
                         end))
  /\ (redis_get now (session_key session_id) st = None ->
      update_session now session_id updates st = (Raises (not_found session_id), st)).
Proof.
  intros Httl. split.
  - intros d Hget merged st'. unfold update_session. rewrite Hget.
    fold merged. unfold redis_setex.
    destruct (0 <? session_ttl)%Z eqn:Hpos; [|apply Z.ltb_ge in Hpos; lia].
    split; [done|].
    unfold redis_get, redis_ttl, st'. rewrite lookup_insert_eq. simpl.
    destruct (now <? now + session_ttl)%Z eqn:Hlt; [|apply Z.ltb_ge in Hlt; lia].
    split; [done|]. split; [f_equal; lia|].
    unfold merged. split; [apply lookup_insert_eq|].
    intros k Hk. rewrite lookup_insert_ne by done.
    rewrite lookup_union. destruct (updates !! k), (d !! k); done.
  - intros Hnone. unfold update_session, get_session. by rewrite Hnone.
Qed.

End Service.

(** *** The life of a session record *)

Lemma redis_get_setex now t key ttl v (st st' : redis) :
  redis_setex now key ttl v st = (Returns tt, st') ->
  redis_get t key st' = if (t <? now + ttl)%Z then Some v else None.
Proof.
  unfold redis_setex. destruct (0 <? ttl)%Z; [|done].
  intros [= <-]. unfold redis_get. by rewrite lookup_insert_eq.
Qed.

Section Lifecycle.
Context `{SessionEnv} `{!SessionHost}.

(** X14. A session that was created can be read back until its lifetime is
    over, and not after. With a positive configured lifetime and a JSON codec
    that reads back the dict it has written, [create_session] returns the id
    [sess_] followed by the first twelve characters of the UUID, its record
    has the full lifetime to live, [get_session] at any time before
    [now + session_ttl] returns the stored dict, whose status is
    [initializing], and at any later time raises
    [SessionNotFoundException]; no other record has changed. *)
Theorem create_session_get hex now (st : redis) :
  let session_id := "sess_" +:+ PyStr.str_take 12 hex in
  let session_data := new_session_data session_id now in
  (0 < session_ttl)%Z ->
  json_loads (json_dumps session_data) = Some (LDict session_data) ->
  json_dumps session_data <> "" ->
  exists st',
    create_session hex now st = (Returns session_id, st')
    /\ get_session_ttl now session_id st' = session_ttl
    /\ session_data !! "status" = Some (JStr "initializing")
    /\ (forall t, (t < now + session_ttl)%Z ->
          get_session t session_id st' = Returns (LDict session_data))
    /\ (forall t, (now + session_ttl <= t)%Z ->
          get_session t session_id st' = Raises (not_found session_id))
    /\ (forall key, key <> session_key session_id -> st' !! key = st !! key).
Proof.
  intros session_id session_data Httl Hcodec Hnonempty.
  unfold create_session. fold session_id. fold session_data.
  destruct (redis_setex now (session_key session_id) session_ttl
              (json_dumps session_data) st) as [[[]|e] st'] eqn:Hset;
    [|unfold redis_setex in Hset;
      destruct (0 <? session_ttl)%Z eqn:Hpos; [done | apply Z.ltb_ge in Hpos; lia]].
  exists st'. split; [done|].
  pose proof (fun t => redis_get_setex now t _ _ _ _ _ Hset) as Hget.
  unfold redis_setex in Hset.
  destruct (0 <? session_ttl)%Z; [|done]. injection Hset as <-.
  split.
  { unfold get_session_ttl, redis_ttl. rewrite lookup_insert_eq. simpl.
    destruct (now <? now + session_ttl)%Z eqn:Hlt; [|apply Z.ltb_ge in Hlt; lia].
    simpl. replace (now + session_ttl - now)%Z with session_ttl by lia.
    destruct (0 <? session_ttl)%Z eqn:Hpos; [lia | apply Z.ltb_ge in Hpos; lia]. }
  split; [done|]. split; [|split].
  - intros t Ht. unfold get_session. rewrite Hget.
    destruct (t <? now + session_ttl)%Z eqn:Hlt; [|apply Z.ltb_ge in Hlt; lia].
    destruct (json_dumps session_data) eqn:Hd; [done|]. simpl.
    by rewrite Hcodec.
  - intros t Ht. unfold get_session. rewrite Hget.
    destruct (t <? now + session_ttl)%Z eqn:Hlt; [apply Z.ltb_lt in Hlt; lia | done].
  - intros key Hkey. by rewrite lookup_insert_ne.
Qed.

(** X15. [delete_session] can be repeated and forgets the session only: after
    it the session is not found and has no time to live, deleting it again
    changes nothing, and every other record is as before. *)
Theorem delete_session_gone now session_id (st : redis) :
  let st' := delete_session session_id st in
  get_session now session_id st' = Raises (not_found session_id)
  /\ get_session_ttl now session_id st' = 0%Z
  /\ delete_session session_id st' = st'
  /\ (forall key, key <> session_key session_id -> st' !! key = st !! key)
  /\ (forall other, session_key other <> session_key session_id ->
        get_session now other st' = get_session now other st).
Proof.
  intros st'. unfold st', delete_session.
  split; [unfold get_session, redis_get; by rewrite lookup_delete_eq|].
  split; [unfold get_session_ttl, redis_ttl; by rewrite lookup_delete_eq|].
  split; [apply delete_delete_eq|].
  split; [intros key Hkey; by rewrite lookup_delete_ne|].
  intros other Hother. unfold get_session, redis_get. by rewrite lookup_delete_ne.
Qed.

Lemma elem_of_redis_keys now prefix (st : redis) key :
  key ∈ redis_keys now prefix st
  <-> String.prefix prefix key = true /\ is_Some (redis_get now key st).
Proof.
  unfold redis_keys. rewrite list_elem_of_filter. split; [by intros [? _]|].
  intros [Hp Hlive]. split; [done|].
  apply list_elem_of_fmap. destruct Hlive as [v Hv]. unfold redis_get in Hv.
  destruct (st !! key) as [e|] eqn:Hlook; [|done].
  exists (key, e). split; [done|]. by apply elem_of_map_to_list.
Qed.

(** X16. [get_all_sessions] lists the sessions that are alive: the id of every
    live session is listed, provided the text [session:] does not occur in
    the id itself (it never does in an id made by [create_session] from
    hexadecimal digits); and whatever is listed comes from a live key that
    starts with [session:], with every [session:] in it removed. A session
    that has expired or was deleted is not behind any listed id. *)
Theorem get_all_sessions_live now (st : redis) :
  (forall session_id,
     PyStr.contains "session:" session_id = false ->
     is_Some (redis_get now (session_key session_id) st) ->
     session_id ∈ get_all_sessions now st)
  /\ (forall listed,
        listed ∈ get_all_sessions now st ->
        exists key, listed = PyStr.str_replace "session:" "" key
                    /\ String.prefix "session:" key = true
                    /\ is_Some (redis_get now key st)).
Proof.
  unfold get_all_sessions. split.
  - intros session_id Habsent Hlive. apply list_elem_of_fmap.
    exists (session_key session_id). split.
    + unfold session_key. symmetry. by apply PyStrFacts.str_replace_prefix.
    + apply elem_of_redis_keys. split; [|done].
      apply PyStrFacts.prefix_self_app.
  - intros listed Hin. apply list_elem_of_fmap in Hin as (key & -> & Hkey).
    apply elem_of_redis_keys in Hkey as [Hp Hlive]. by exists key.
Qed.



End Lifecycle.


#[local] Existing Instance Samples.sample_session_env.

(** A status update at time 100 of a session stored at time 0. *)
Lemma update_session_spec_witness :
  let updates : gmap string jval := {[ "status" := JStr "indexing" ]} in
  (0 < session_ttl)%Z
  /\ get_session 100 "sess_1" Samples.sample_redis
     = Returns (LDict {[ "status" := JStr "parsing" ]})
  /\ update_session 100 "sess_1" updates Samples.sample_redis
     = (Returns tt, {[ "session:sess_1" := RedisEntry "indexing" 3700 ]})
  /\ update_session 100 "sess_2" updates Samples.sample_redis
     = (Raises (not_found "sess_2"), Samples.sample_redis).
Proof.
  intros updates.
  destruct (update_session_spec 100 "sess_1" updates Samples.sample_redis)
    as [Hthere _]; [reflexivity|].
  destruct (update_session_spec 100 "sess_2" updates Samples.sample_redis)
    as [_ Hgone]; [reflexivity|].
  split; [reflexivity|]. split; [reflexivity|]. split.
  - destruct (Hthere {[ "status" := JStr "parsing" ]}) as [-> _]; [reflexivity|].
    vm_compute. reflexivity.
  - apply Hgone. reflexivity.
Defined.

Section Sweep.
Context `{Numbers} `{!Vector.Chroma} `{!SessionEnv} `{!SessionHost} `{!TempFiles}.


(** X19. When the sweep does find a session whose record is still there and
    whose last activity is more than [session_ttl] old (a record that was
    given a longer lifetime than the one now configured), it reclaims all of
    it: the record is gone, the session's collection is gone, the folder has
    been cleaned, and the records and collections of the other sessions are
    untouched. *)
Theorem sweep_session_cleans now session_id (w : world) d text last :
  get_session now session_id (w_redis w) = Returns (LDict d) ->
  d !! "last_activity" = Some (JStr text) ->
  fromisoformat text = Some last ->
  (session_ttl < now - last)%Z ->
  exists w',
    sweep_session now session_id w = (w', true)
    /\ get_session now session_id (w_redis w') = Raises (not_found session_id)
    /\ w_store w' !! Vector.collection_name session_id = None
    /\ w_folders w' = cleanup_temp_files session_id (w_folders w)
    /\ (forall key, key <> session_key session_id ->
          w_redis w' !! key = w_redis w !! key)
    /\ (forall name, name <> Vector.collection_name session_id ->
          w_store w' !! name = w_store w !! name).
Proof.
  intros Hget Hlast Hiso Hidle. unfold sweep_session.
  rewrite Hget, Hlast, Hiso.
  destruct (session_ttl <? now - last)%Z eqn:Hltb; [|apply Z.ltb_ge in Hltb; lia].
  eexists. split; [reflexivity|]. cbn [cleanup_resources w_redis w_store w_folders].
  assert (Vector.delete_collection session_id (w_store w)
          = delete (Vector.collection_name session_id) (w_store w)) as Hdel.
  { unfold Vector.delete_collection, Vector.client_delete_collection.
    destruct (w_store w !! Vector.collection_name session_id) eqn:Hlook; [done|].
    simpl. by rewrite delete_id. }
  rewrite Hdel. unfold delete_session.
  split; [unfold get_session, redis_get; by rewrite lookup_delete_eq|].
  split; [apply lookup_delete_eq|]. split; [done|].
  split; intros k Hk; by rewrite lookup_delete_ne.
Qed.

End Sweep.

#[local] Existing Instance Samples.line_codec_env.
#[local] Existing Instance Samples.sample_host.

(** The session created at time 0 from the sample UUID. *)
Lemma create_session_get_witness :
  let session_id := "sess_" +:+ PyStr.str_take 12 Samples.sample_hex in
  let session_data := new_session_data session_id 0 in
  (0 < session_ttl)%Z
  /\ json_loads (json_dumps session_data) = Some (LDict session_data)
  /\ json_dumps session_data <> ""
  /\ exists st',
       create_session Samples.sample_hex 0 ∅ = (Returns "sess_0123456789ab", st')
       /\ get_session 3599 "sess_0123456789ab" st' = Returns (LDict session_data)
       /\ get_session 3600 "sess_0123456789ab" st'
          = Raises (not_found "sess_0123456789ab").
Proof.
  intros session_id session_data.
  assert (json_loads (json_dumps session_data) = Some (LDict session_data)) as Hcodec
    by (vm_compute; reflexivity).
  assert (json_dumps session_data <> "") as Hne by (vm_compute; discriminate).
  split; [reflexivity|]. split; [exact Hcodec|]. split; [exact Hne|].
  destruct (create_session_get Samples.sample_hex 0 ∅)
    as (st' & Hcreate & _ & _ & Hbefore & Hafter & _);
    [reflexivity | exact Hcodec | exact Hne |].
  exists st'. split; [exact Hcreate|].
  split; [apply Hbefore | apply Hafter]; reflexivity.
Defined.

#[local] Existing Instance Samples.sample_numbers.
#[local] Existing Instance Samples.sample_temp_files.





(** The same session with a record that lives until time 9000, swept at time
    5000. *)
Lemma sweep_session_cleans_witness :
  let w := Samples.sample_world 9000 in
  let d := new_session_data "sess_0123456789ab" 0 in
  get_session 5000 "sess_0123456789ab" (w_redis w) = Returns (LDict d)
  /\ d !! "last_activity" = Some (JStr "0")
  /\ fromisoformat "0" = Some 0%Z
  /\ (session_ttl < 5000 - 0)%Z
  /\ exists w',
       sweep_session 5000 "sess_0123456789ab" w = (w', true)
       /\ w_store w' !! Vector.collection_name "sess_0123456789ab" = None.
Proof.
  intros w d.
  assert (get_session 5000 "sess_0123456789ab" (w_redis w) = Returns (LDict d)) as Hget
    by (vm_compute; reflexivity).
  assert (d !! "last_activity" = Some (JStr "0")) as Hlast by (vm_compute; reflexivity).
  split; [exact Hget|]. split; [exact Hlast|]. split; [reflexivity|]. split; [reflexivity|].
  destruct (sweep_session_cleans 5000 "sess_0123456789ab" w d "0" 0 Hget Hlast)
    as (w' & Hsweep & _ & Hstore & _); [reflexivity | reflexivity |].
  exists w'. by split.
Defined.

End SessionFacts.

(** ** The settings *)

Module ConfigFacts.
Import PyStr PyStrFacts Config.

(** X20. The list of fallback models read from the settings is the list that
    was written there: for names without commas and without white space
    around them, joined by commas into a string that is not empty,
    [fallback_models_list] gives the names back, in order; the empty setting
    gives no fallback model. *)
Theorem fallback_models_list_join names :
  names <> [] -> names <> [""] ->
  Forall plain_name names ->
  fallback_models_list (join "," names) = names
  /\ fallback_models_list "" = [].
Proof.
  intros Hne Hne' Hall. split; [|done].
  unfold fallback_models_list.
  assert (truthy (join "," names) = true) as ->.
  { destruct names as [|p [|q names]]; [done| |].
    - simpl. destruct p; [done|done].
    - change (join "," (p :: q :: names)) with (p +:+ "," +:+ join "," (q :: names)).
      destruct p; [by rewrite str_app_empty_l, str_app_cons | by rewrite str_app_cons]. }
  change "," with (String comma "").
  rewrite split_on_join; [|done|].
  - apply list_eq. intros i. rewrite list_lookup_fmap.
    destruct (names !! i) as [n|] eqn:Hi; [|done]. simpl. f_equal.
    eapply Forall_lookup in Hall; [|exact Hi]. apply Hall.
  - eapply Forall_impl; [exact Hall|]. by intros n [Hn _].
Qed.

(** The default setting lists two fallback models. *)
Lemma fallback_models_list_join_witness :
  let names := ["google/gemini-pro"; "meta-llama/llama-3-8b-instruct"] in
  names <> [] /\ names <> [""] /\ Forall plain_name names
  /\ fallback_models_list "google/gemini-pro,meta-llama/llama-3-8b-instruct" = names.
Proof.
  intros names.
  assert (Forall plain_name names) as Hall by (repeat constructor).
  split; [done|]. split; [done|]. split; [exact Hall|].
  by destruct (fallback_models_list_join names) as [Hjoin _].
Defined.

End ConfigFacts.

(** ** File handling *)

Module FileServiceFacts.
Import FileService.

(** Induction on a directory tree, with the property known of every entry of
    a directory. *)
Lemma fs_entry_forall_ind (P : fs_entry -> Prop) :
  (forall name st_size, P (FsFile name st_size)) ->
  (forall name entries, Forall P entries -> P (FsDir name entries)) ->
  forall e, P e.
Proof.
  intros Hfile Hdir. fix IH 1. intros [name st_size|name entries]; [apply Hfile|].
  apply Hdir. induction entries as [|e entries IHentries]; constructor;
    [apply IH | exact IHentries].
Qed.

Lemma dict_get_bump lang lang' lang_count :
  default 0 (dict_get lang' (bump lang lang_count))
  = default 0 (dict_get lang' lang_count) + (if decide (lang = lang') then 1 else 0).
Proof.
  induction lang_count as [|[l n] rest IH]; simpl.
  - destruct (String.eqb_spec lang lang'); by case_decide.
  - destruct (String.eqb_spec l lang) as [->|Hne]; simpl.
    + destruct (String.eqb_spec lang lang'); case_decide; simpl; try done; lia.
    + destruct (String.eqb_spec l lang'); [|exact IH].
      case_decide; [congruence | simpl; lia].
Qed.

Lemma bump_keys lang lang_count :
  (bump lang lang_count).*1
  = if decide (lang ∈ lang_count.*1) then lang_count.*1 else lang_count.*1 ++ [lang].
Proof.
  induction lang_count as [|[l n] rest IH]; [done|].
  cbn [bump]. destruct (String.eqb_spec l lang) as [->|Hne]; rewrite !fmap_cons; cbn [fst].
    + rewrite decide_True by left. done.
    + rewrite IH. destruct (decide (lang ∈ rest.*1)) as [Hin|Hout].
      * rewrite decide_True by (by right). done.
      * rewrite decide_False; [done|]. intros Hin. apply elem_of_cons in Hin.
        destruct Hin; [congruence | done].
Qed.

Lemma bump_NoDup lang lang_count :
  NoDup lang_count.*1 -> NoDup (bump lang lang_count).*1.
Proof.
  intros Hnd. rewrite bump_keys. case_decide as Hin; [done|].
  apply NoDup_app. split; [done|]. split; [|apply NoDup_singleton].
  intros x Hx Hx'. apply list_elem_of_singleton in Hx'. by subst.
Qed.

Lemma dict_get_elem_of {V} key (items : list (string * V)) v :
  dict_get key items = Some v -> (key, v) ∈ items.
Proof.
  induction items as [|[k w] rest IH]; [done|]. simpl.
  destruct (String.eqb_spec k key) as [->|Hne].
  - intros [= ->]. left.
  - intros Hget. right. by apply IH.
Qed.

Lemma elem_of_dict_get {V} key (items : list (string * V)) v :
  NoDup items.*1 -> (key, v) ∈ items -> dict_get key items = Some v.
Proof.
  induction items as [|[k w] rest IH]; intros Hnd Hin; [by apply elem_of_nil in Hin|].
  simpl in *. apply NoDup_cons in Hnd as [Hk Hnd].
  apply elem_of_cons in Hin as [[= <- <-]|Hin].
  - by rewrite String.eqb_refl.
  - destruct (String.eqb_spec k key) as [->|Hne]; [|by apply IH].
    exfalso. apply Hk. apply list_elem_of_fmap. by exists (key, v).
Qed.

(** [max] returns an item of the list, and none has a larger count. *)
Lemma max_item_spec best items :
  max_item best items ∈ best :: items
  /\ forall item, item ∈ best :: items -> item.2 <= (max_item best items).2.
Proof.
  revert best. induction items as [|item items IH]; intros best; simpl.
  - split; [left|]. intros it Hit. apply list_elem_of_singleton in Hit. by subst.
  - destruct (best.2 <? item.2)%nat eqn:Hlt.
    + apply Nat.ltb_lt in Hlt. destruct (IH item) as [Hin Hmax].
      split; [by right|]. intros it Hit.
      apply elem_of_cons in Hit as [->|Hit]; [|by apply Hmax].
      specialize (Hmax item (list_elem_of_here _ _)). lia.
    + apply Nat.ltb_ge in Hlt. destruct (IH best) as [Hin Hmax].
      split.
      * apply elem_of_cons in Hin as [->|Hin]; [left | right; by right].
      * intros it Hit. apply elem_of_cons in Hit as [->|Hit]; [by apply Hmax; left|].
        apply elem_of_cons in Hit as [->|Hit].
        -- specialize (Hmax best (list_elem_of_here _ _)). lia.
        -- apply Hmax. by right.
Qed.

Section Service.
Context `{Parser.ParserEnv}.

Lemma count_languages_from file_paths lang_count :
  let result :=
    fold_left (fun acc file_path => bump (language_of file_path) acc)
      file_paths lang_count in
  (forall lang,
     default 0 (dict_get lang result)
     = default 0 (dict_get lang lang_count)
       + length (filter (fun p => language_of p = lang) file_paths))
  /\ (NoDup lang_count.*1 -> NoDup result.*1).
Proof.
  revert lang_count. induction file_paths as [|p ps IH]; intros lang_count; simpl.
  - split; [intros lang; lia | done].
  - destruct (IH (bump (language_of p) lang_count)) as [Hcount Hnd]. split.
    + intros lang. rewrite Hcount, dict_get_bump, filter_cons.
      case_decide; simpl; lia.
    + intros Hnd0. by apply Hnd, bump_NoDup.
Qed.

(** X21. [get_language_stats] counts every file once: for each language, its
    count is the number of files of that language (by lower-cased extension,
    [Other] for the rest); no language is listed twice; without files the
    primary language is [Unknown]; with files it is a listed language, and no
    language has more files. *)
Theorem get_language_stats_counts file_paths :
  let '(primary, lang_count) := get_language_stats file_paths in
  (forall lang,
     default 0 (dict_get lang lang_count)
     = length (filter (fun p => language_of p = lang) file_paths))
  /\ NoDup lang_count.*1
  /\ (file_paths = [] -> primary = "Unknown" /\ lang_count = [])
  /\ (file_paths <> [] ->
      exists n, dict_get primary lang_count = Some n
                /\ 0 < n
                /\ forall lang, default 0 (dict_get lang lang_count) <= n).
Proof.
  unfold get_language_stats, count_languages.
  destruct (count_languages_from file_paths []) as [Hcount Hnd].
  cbn zeta in *. set (lang_count := fold_left _ file_paths []) in *.
  specialize (Hnd (NoDup_nil_2)).
  split; [intros lang; by rewrite Hcount|]. split; [done|]. split.
  - intros ->. done.
  - intros Hne. clearbody lang_count. destruct file_paths as [|p ps]; [done|].
    assert (0 < default 0 (dict_get (language_of p) lang_count)) as Hp.
    { rewrite Hcount, filter_cons_True by done. simpl. lia. }
    destruct lang_count as [|item rest]; [simpl in Hp; lia|].
    unfold primary_language.
    destruct (max_item_spec item rest) as [Hin Hmax].
    destruct (max_item item rest) as [primary n]. cbn [fst snd] in *.
    exists n. split; [by apply elem_of_dict_get|].
    assert (forall lang, default 0 (dict_get lang (item :: rest)) <= n) as Hall.
    { intros lang. destruct (dict_get lang (item :: rest)) as [m|] eqn:Hget; [|simpl; lia].
      apply dict_get_elem_of in Hget. by apply (Hmax (lang, m)). }
    split; [|exact Hall].
    specialize (Hall (language_of p)). lia.
Qed.

Lemma elem_of_concat {A} (x : A) (ls : list (list A)) :
  x ∈ concat ls <-> exists l, x ∈ l /\ l ∈ ls.
Proof.
  induction ls as [|l ls IH]; simpl.
  - rewrite elem_of_nil. split; [done|]. intros (l & _ & Hl). by apply elem_of_nil in Hl.
  - rewrite elem_of_app, IH. split.
    + intros [Hx|(l' & Hx & Hl')]; [exists l; split; [done|left] | exists l'; split; [done|by right]].
    + intros (l' & Hx & Hl'). apply elem_of_cons in Hl' as [->|Hl']; [by left|].
      right. by exists l'.
Qed.

Lemma elem_of_files_here root entries file_path :
  file_path ∈ files_here root entries
  <-> exists e, e ∈ entries /\ keep_file root e = Some file_path.
Proof. unfold files_here. apply list_elem_of_omap. Qed.

Lemma elem_of_walk_entries root entries file_path :
  Forall (fun e => forall parent p,
            p ∈ walk_entry parent e <->
            match e with
            | FsFile _ _ => False
            | FsDir name sub =>
                (name ∉ skipped_directories) /\ listed (path_join parent name) sub p
            end) entries ->
  file_path ∈ files_here root entries ++ concat (map (walk_entry root) entries)
  <-> listed root entries file_path.
Proof.
  intros Hall. rewrite elem_of_app, elem_of_files_here. split.
  - intros [(e & He & Hkeep) | Hbelow]; [by eapply listed_here|].
    apply elem_of_concat in Hbelow as (l & Hp & Hl).
    apply list_elem_of_fmap in Hl as (e & -> & He).
    eapply Forall_forall in Hall; [|exact He].
    apply Hall in Hp. destruct e as [|name sub]; [done|].
    destruct Hp as [Hskip Hlisted]. by eapply listed_below.
  - intros Hlisted. inversion Hlisted as [? ? e ? He Hkeep|? ? name sub ? Hdir Hskip Hsub];
      subst.
    + left. by exists e.
    + right. apply elem_of_concat. exists (walk_entry root (FsDir name sub)).
      split; [|apply list_elem_of_fmap; by eexists].
      eapply Forall_forall in Hall; [|exact Hdir]. by apply Hall.
Qed.

Lemma elem_of_walk_entry e :
  forall parent p,
    p ∈ walk_entry parent e <->
    match e with
    | FsFile _ _ => False
    | FsDir name sub =>
        (name ∉ skipped_directories) /\ listed (path_join parent name) sub p
    end.
Proof.
  induction e as [name st_size|name entries IH] using fs_entry_forall_ind;
    intros parent p.
  - simpl. by rewrite elem_of_nil.
  - cbn [walk_entry]. case_bool_decide as Hskip.
    + rewrite elem_of_nil. tauto.
    + rewrite (elem_of_walk_entries _ _ _ IH). tauto.
Qed.

Lemma listed_supported root entries file_path :
  listed root entries file_path ->
  PyStr.lower (Parser.path_suffix file_path) ∈ SUPPORTED_EXTENSIONS.
Proof.
  induction 1 as [root entries e file_path He Hkeep|]; [|done].
  destruct e as [name st_size|]; [|done]. simpl in Hkeep.
  case_bool_decide as Hext; [|done].
  destruct st_size as [size|]; [destruct (1048576 <? size)%Z|]; by simplify_eq.
Qed.

(** X22. [get_all_code_files] returns exactly the files listed below the
    directory: those reached through directories none of which is skipped
    ([.git], [node_modules], [__pycache__], ...), whose lower-cased extension
    is supported, and whose size is at most 1048576 bytes or cannot be read.
    In particular every path it returns has a supported extension. *)
Theorem get_all_code_files_listed directory entries :
  (forall file_path,
     file_path ∈ get_all_code_files directory entries
     <-> listed directory entries file_path)
  /\ (forall file_path,
        file_path ∈ get_all_code_files directory entries ->
        PyStr.lower (Parser.path_suffix file_path) ∈ SUPPORTED_EXTENSIONS).
Proof.
  assert (forall file_path,
            file_path ∈ get_all_code_files directory entries
            <-> listed directory entries file_path) as Hlisted.
  { intros file_path. unfold get_all_code_files. apply elem_of_walk_entries.
    apply Forall_forall. intros e _. apply elem_of_walk_entry. }
  split; [exact Hlisted|].
  intros file_path Hin. apply Hlisted in Hin. by eapply listed_supported.
Qed.

End Service.

End FileServiceFacts.

(** ** The endpoints *)

Module ApiFacts.
Import Session Api.

Section Query.
Context `{Embedding.EmbeddingModel} `{!Vector.Chroma} `{!LLM.OpenRouter}
  `{!RAG.QuerySettings} `{!SessionEnv} `{!ApiHost}.

(** [get_session] raises nothing but [SessionNotFoundException] for the
    session asked. *)
Lemma get_session_raises now session_id (st : redis) e :
  get_session now session_id st = Raises e -> e = not_found session_id.
Proof.
  unfold get_session.
  destruct (redis_get now (session_key session_id) st) as [data|]; [|congruence].
  destruct (PyStr.truthy data); [|congruence].
  destruct (json_loads data); congruence.
Qed.

(** An update of a session that can be read fails only in the database. *)
Lemma update_session_raises now session_id updates (st st' : redis) l e :
  get_session now session_id st = Returns l ->
  update_session now session_id updates st = (Raises e, st') ->
  exn_cls e = OtherError /\ st' = st.
Proof.
  unfold update_session. intros ->. destruct l as [d|v].
  - unfold redis_setex. destruct (0 <? session_ttl)%Z; [done|].
    by intros [= <- <-].
  - by intros [= <- <-].
Qed.

(** [process_query] raises the exceptions of the three services only. *)
Lemma process_query_raises session_id question model store net e net' :
  RAG.process_query session_id question model store net = (Raises e, net') ->
  exn_cls e <> SessionNotFoundException.
Proof.
  unfold RAG.process_query, Embedding.generate_single_embedding.
  destruct (Embedding.encode_one _) as [q|e0]; [|by intros [= <- _]].
  unfold Vector.search_similar.
  destruct (store !! _) as [entries|]; [|by intros [= <- _]].
  destruct (Vector.collection_query _ _ _) as [results|e1]; [|by intros [= <- _]].
  destruct (Vector.format_results results) as [chunks|]; [|by intros [= <- _]].
  unfold LLM.generate_explanation.
  pose proof (LLMFacts.try_models_spec (LLM.models_to_try model)
                (LLM.user_prompt question chunks) None net) as Hspec.
  destruct (LLM.try_models _ _ _ _) as [[r|e2] net2]; [done|].
  intros [= <- _].
  destruct Hspec as (_ & _ & [[_ ->]|(init & m & err & _ & _ & ->)]); done.
Qed.

(** X23. The query endpoint answers an error with status 404 or 500 and with
    no other status: 404, with the text of the [SessionNotFoundException],
    exactly when the record of the session cannot be read, and then nothing
    was written and no model was asked; 500 in every other case. The 400
    that the code raises for a session that is not ready is caught by the
    handler of [Exception] of the same [try] and leaves as a 500. *)
Theorem query_codebase_status_codes session_id question model now
    (st : redis) (store : Vector.store) (net : LLM.net) :
  match query_codebase session_id question model now st store net with
  | (HttpError status_code detail, st', net') =>
      (status_code = 404
       /\ detail = "Session not found: " +:+ session_id
       /\ get_session now session_id st = Raises (not_found session_id)
       /\ st' = st /\ net' = net)
      \/ (status_code = 500
          /\ exists l, get_session now session_id st = Returns l)
  | (Ok _, _, _) => True
  end.
Proof.
  unfold query_codebase, query_body.
  destruct (get_session now session_id st) as [l|e] eqn:Hget.
  - destruct l as [session_data|v].
    + destruct (session_data !! "status") as [status|].
      * destruct (is_ready status).
        -- destruct (update_session now session_id ∅ st) as [[u|e] st'] eqn:Hupd.
           ++ destruct (RAG.process_query _ _ _ _ _) as [[result|e] net'] eqn:Hq;
                [done|].
              apply process_query_raises in Hq. cbn [handle].
              destruct (exn_cls e); try done; right; eauto.
           ++ destruct (update_session_raises _ _ _ _ _ _ _ Hget Hupd) as [Hcls _].
              cbn [handle]. rewrite Hcls. right; eauto.
        -- cbn [handle]. right; eauto.
      * cbn [handle exn_cls]. right; eauto.
    + cbn [handle exn_cls]. right; eauto.
  - apply get_session_raises in Hget as He. subst e.
    cbn [handle not_found exn_cls exn_str]. left. done.
Qed.

(** X24. Unless the record of the session can be read and its status is
    [ready], the query endpoint answers an error and has no effect: the
    record keeps the time it expires at, and no model is asked. *)
Theorem query_codebase_needs_ready session_id question model now
    (st : redis) (store : Vector.store) (net : LLM.net) :
  (forall session_data, get_session now session_id st = Returns (LDict session_data) ->
     session_data !! "status" <> Some (JStr "ready")) ->
  exists status_code detail,
    query_codebase session_id question model now st store net
    = (HttpError status_code detail, st, net).
Proof.
  intros Hnot. unfold query_codebase, query_body.
  destruct (get_session now session_id st) as [[session_data|v]|e]; [| |].
  - specialize (Hnot session_data eq_refl).
    destruct (session_data !! "status") as [status|]; [|cbn [handle exn_cls]; eauto].
    destruct (is_ready status) eqn:Hready; [|cbn [handle]; eauto].
    destruct status as [| | |s| |]; try done. cbn [is_ready] in Hready.
    apply String.eqb_eq in Hready. by subst s.
  - cbn [handle exn_cls]; eauto.
  - unfold handle. destruct (exn_cls e); eauto.
Qed.

(** X25. When the query endpoint answers, the record of the session has been
    written again with a full lifetime, the answer is the one [process_query]
    gave for the question - its text, one snippet per retrieved chunk with
    the chunk's file, line range and code, the set of their files, the model
    used - and the models asked are those [process_query] asked. *)
Theorem query_codebase_answer session_id question model now
    (st st' : redis) (store : Vector.store) (net net' : LLM.net) body :
  query_codebase session_id question model now st store net = (Ok body, st', net') ->
  redis_ttl now (session_key session_id) st' = Some session_ttl
  /\ (forall key, key <> session_key session_id -> st' !! key = st !! key)
  /\ exists result,
       RAG.process_query session_id question model store net = (Returns result, net')
       /\ qr_answer body = RAG.qa_answer result
       /\ qr_model_used body = RAG.qa_model_used result
       /\ qr_relevant_files body = RAG.qa_relevant_files result
       /\ rs_file <$> qr_code_snippets body = RAG.cs_file <$> RAG.qa_code_snippets result
       /\ rs_lines <$> qr_code_snippets body = RAG.cs_lines <$> RAG.qa_code_snippets result
       /\ rs_code <$> qr_code_snippets body = RAG.cs_code <$> RAG.qa_code_snippets result.
Proof.
  unfold query_codebase, query_body.
  destruct (get_session now session_id st) as [[session_data|v]|e] eqn:Hget;
    [| |].
  - destruct (session_data !! "status") as [status|];
      [|cbn [handle exn_cls]; done].
    destruct (is_ready status); [|cbn [handle]; done].
    destruct (update_session now session_id ∅ st) as [[u|e] st1] eqn:Hupd.
    + destruct (RAG.process_query _ _ _ _ _) as [[result|e] net1] eqn:Hq.
      * intros [= <- <- <-].
        unfold update_session in Hupd. rewrite Hget in Hupd.
        unfold redis_setex in Hupd.
        destruct (0 <? session_ttl)%Z eqn:Hpos; [|done].
        injection Hupd as _ <-.
        split.
        { unfold redis_ttl. rewrite lookup_insert_eq. cbn [expires_at].
          apply Z.ltb_lt in Hpos.
          destruct (Z.ltb_spec now (now + session_ttl)%Z); [|lia].
          f_equal. lia. }
        split.
        { intros key Hkey. by rewrite lookup_insert_ne. }
        exists result. split; [done|].
        cbn [to_response qr_answer qr_model_used qr_relevant_files qr_code_snippets].
        repeat split; rewrite <- list_fmap_compose; done.
      * unfold handle. destruct (exn_cls e); done.
    + unfold handle. destruct (exn_cls e); done.
  - cbn [handle exn_cls]; done.
  - unfold handle. destruct (exn_cls e); done.
Qed.

End Query.

Section Cleanup.
Context `{Numbers} `{!Vector.Chroma} `{!SessionEnv} `{!SessionHost} `{!TempFiles}
  `{!ApiHost}.

(** A record that cannot be read at some time cannot be read later. *)
Lemma get_session_raises_later now later session_id (st : redis) e :
  (now <= later)%Z ->
  get_session now session_id st = Raises e ->
  get_session later session_id st = Raises (not_found session_id).
Proof.
  intros Hle. unfold get_session, redis_get.
  destruct (st !! session_key session_id) as [entry|]; [|done].
  destruct (Z.ltb_spec now (expires_at entry)), (Z.ltb_spec later (expires_at entry));
    try lia; try done.
  destruct (PyStr.truthy (value entry)); [|done].
  destruct (json_loads (value entry)); done.
Qed.

(** X26. A session is cleaned up once: whatever the first call of the cleanup
    endpoint answered, a second call for the same session at the same or a
    later time answers 404 with the text of the [SessionNotFoundException]
    and changes nothing, and after the first call the session has neither a
    readable record nor, when the call answered, a collection. *)
Theorem cleanup_session_once session_id now later (w : world) :
  (now <= later)%Z ->
  let '(first, w1) := cleanup_session session_id now w in
  cleanup_session session_id later w1
  = (HttpError 404 ("Session not found: " +:+ session_id), w1)
  /\ match first with
     | Ok message =>
         message = "Session " +:+ session_id +:+ " cleaned up successfully"
         /\ w_redis w1 !! session_key session_id = None
         /\ w_store w1 !! Vector.collection_name session_id = None
         /\ w_folders w1 = cleanup_temp_files session_id (w_folders w)
     | HttpError status_code _ => status_code = 404 /\ w1 = w
     end.
Proof.
  intros Hle. unfold cleanup_session.
  destruct (get_session now session_id (w_redis w)) as [l|e] eqn:Hget.
  - split.
    + unfold get_session, redis_get, cleanup_resources, delete_session.
      cbn [w_redis]. by rewrite lookup_delete_eq.
    + split; [done|]. cbn [cleanup_resources w_redis w_store w_folders].
      split; [by unfold delete_session; rewrite lookup_delete_eq|].
      split; [|done].
      pose proof (VectorFacts.delete_collection_absent session_id (w_store w)) as Hd.
      exact Hd.
  - rewrite (get_session_raises_later _ _ _ _ _ Hle Hget).
    apply get_session_raises in Hget. subst e.
    cbn [handle not_found exn_cls exn_str]. done.
Qed.

End Cleanup.

(** The session of the sample is still being parsed. *)
Lemma query_codebase_needs_ready_witness :
  (forall session_data,
     @get_session Samples.sample_session_env 10 "s1" (Samples.status_redis "parsing")
     = Returns (LDict session_data) ->
     session_data !! "status" <> Some (JStr "ready"))
  /\ exists status_code detail,
       Samples.ask_sample "parsing"
       = (HttpError status_code detail, Samples.status_redis "parsing", LLM.Net [] []).
Proof.
  assert (forall session_data,
     @get_session Samples.sample_session_env 10 "s1" (Samples.status_redis "parsing")
     = Returns (LDict session_data) ->
     session_data !! "status" <> Some (JStr "ready")) as Hnot.
  { intros session_data Hget. vm_compute in Hget.
    injection Hget as <-. vm_compute. discriminate. }
  split; [exact Hnot|].
  exact (@query_codebase_needs_ready _ Samples.sample_model Samples.sample_chroma
           Samples.flaky_router Samples.sample_query_settings Samples.sample_session_env
           Samples.sample_api_host "s1" "How does it work?" None 10
           (Samples.status_redis "parsing") Samples.sample_store (LLM.Net [] []) Hnot).
Defined.

(** The same session once it is ready: the question is answered by the first
    fallback model, and the record lives for another hour. *)
Lemma query_codebase_answer_witness :
  match Samples.ask_sample "ready" with
  | (Ok body, st', net') =>
      redis_ttl 10 (session_key "s1") st' = Some 3600%Z
      /\ qr_model_used body = Some "google/gemini-pro"
  | _ => False
  end.
Proof.
  destruct (Samples.ask_sample "ready") as [[[body|status_code detail] st'] net'] eqn:E.
  - split.
    + exact (proj1 (@query_codebase_answer _ Samples.sample_model Samples.sample_chroma
               Samples.flaky_router Samples.sample_query_settings
               Samples.sample_session_env Samples.sample_api_host
               "s1" "How does it work?" None 10 (Samples.status_redis "ready") st'
               Samples.sample_store (LLM.Net [] []) net' body E)).
    + vm_compute in E. injection E as <- _ _. reflexivity.
  - vm_compute in E. discriminate E.
Defined.

(** The session of the sample world, cleaned up at time 10 and again at time
    20. *)
Lemma cleanup_session_once_witness :
  (10 <= 20)%Z
  /\ (Samples.cleanup_sample 20 (Samples.cleanup_sample 10 (Samples.sample_world 3600)).2).1
     = HttpError 404 "Session not found: sess_0123456789ab".
Proof.
  split; [lia|].
  pose proof (@cleanup_session_once _ Samples.line_codec_env
                Samples.sample_temp_files Samples.sample_api_host
                "sess_0123456789ab" 10 20 (Samples.sample_world 3600) ltac:(lia)) as Honce.
  unfold Samples.cleanup_sample.
  destruct (@cleanup_session _ Samples.line_codec_env Samples.sample_temp_files
              Samples.sample_api_host "sess_0123456789ab" 10 (Samples.sample_world 3600))
    as [first w1].
  destruct Honce as [Hsecond _]. cbn [snd]. rewrite Hsecond. reflexivity.
Defined.

End ApiFacts.
